(** * aiohttp-ip-rotator: a shallow embedding of [RotatingClientSession]

    The development follows [src/aiohttp_ip_rotator/rotator.py].  Python
    strings are [string]s, a [dict] with string keys is a [gmap string _],
    exceptions are values of [exn] carried by [outcome], and the calls
    made to the API Gateway control plane go through the [ApiGateway]
    interface, so every statement holds for any control plane. *)

From Stdlib Require Import ZArith Lia Ascii.
From stdpp Require Import gmap strings list pretty.

Open Scope string_scope.
Open Scope list_scope.
Open Scope nat_scope.

(** ** Exceptions and results *)

Inductive exn : Type :=
  | ValueError (msg : string)
  | RuntimeError (msg : string)
  | IndexError
  | KeyError (key : string)
  | StructError
  | OSError
  | ClientError (code : string)          (* botocore.exceptions.ClientError *)
  | EndpointConnectionError              (* botocore.exceptions.EndpointConnectionError *)
  | BotoCoreError (kind : string).       (* any other botocore exception *)

Inductive outcome (A : Type) : Type :=
  | Return (a : A)
  | Raise (e : exn).
Arguments Return {A} a.
Arguments Raise {A} e.

Definition obind {A B} (m : outcome A) (k : A → outcome B) : outcome B :=
  match m with
  | Return a => k a
  | Raise e => Raise e
  end.

Declare Scope py_scope.
Delimit Scope py_scope with py.
Notation "x <- m ;; k" := (obind m (λ x, k))
  (at level 100, m at next level, right associativity) : py_scope.

(** ** Python string operations used by the source *)

Module Py.

(** [s.startswith(p)] *)
Definition startswith (p s : string) : bool := String.prefix p s.

(** [s.endswith(suf)]: some suffix of [s] equals [suf]. *)
Fixpoint endswith (suf s : string) : bool :=
  String.eqb suf s ||
  match s with
  | EmptyString => false
  | String _ s' => endswith suf s'
  end.

(** [s[:-1]] *)
Fixpoint drop_last (s : string) : string :=
  match s with
  | EmptyString => EmptyString
  | String c EmptyString => EmptyString
  | String c s' => String c (drop_last s')
  end.

(** [s[n:]] *)
Fixpoint drop (n : nat) (s : string) : string :=
  match n, s with
  | O, _ => s
  | S _, EmptyString => EmptyString
  | S n', String _ s' => drop n' s'
  end.

(** [s.partition(sep)] at the first occurrence of a non-empty [sep];
    [None] when [sep] does not occur. *)
Fixpoint partition (sep s : string) : option (string * string) :=
  if String.prefix sep s then Some (EmptyString, drop (String.length sep) s)
  else match s with
       | EmptyString => None
       | String c s' =>
           match partition sep s' with
           | Some (a, b) => Some (String c a, b)
           | None => None
           end
       end.

(** [s.split(sep, 1)] *)
Definition split1 (sep s : string) : list string :=
  match partition sep s with
  | Some (a, b) => [a; b]
  | None => [s]
  end.

(** [l[i]] for a non-negative [i] *)
Definition index {A} (l : list A) (i : nat) : outcome A :=
  match l !! i with
  | Some x => Return x
  | None => Raise IndexError
  end.

(** truth value of an [Optional[str]] *)
Definition truthy (o : option string) : bool :=
  match o with
  | Some s => negb (String.eqb s EmptyString)
  | None => false
  end.

End Py.

(** ** The session object *)

Record RotatingClientSession : Type := mkSession {
  target : string;
  key_id : option string;
  key_secret : option string;
  host_header : string;
  clear_all : bool;
  verbose : bool;
  wait_all_regions : bool;
  endpoints : list string;
  name : string;
  active : bool;
  regions : list string;
  closed : bool                  (* state of the underlying [ClientSession] *)
}.

Definition set_endpoints (es : list string) (self : RotatingClientSession) :=
  mkSession (target self) (key_id self) (key_secret self) (host_header self)
    (clear_all self) (verbose self) (wait_all_regions self) es (name self)
    (active self) (regions self) (closed self).

Definition set_active (b : bool) (self : RotatingClientSession) :=
  mkSession (target self) (key_id self) (key_secret self) (host_header self)
    (clear_all self) (verbose self) (wait_all_regions self) (endpoints self)
    (name self) b (regions self) (closed self).

Definition set_closed (b : bool) (self : RotatingClientSession) :=
  mkSession (target self) (key_id self) (key_secret self) (host_header self)
    (clear_all self) (verbose self) (wait_all_regions self) (endpoints self)
    (name self) (active self) (regions self) b.

(** The region list of [__init__], with the Python adjacent-literal
    concatenation of ["me-south-1" "ap-northeast-3"] carried out. *)
Definition default_regions : list string :=
  [ "us-east-1"; "us-east-2"; "us-west-1"; "us-west-2";
    "eu-west-1"; "eu-west-2"; "eu-west-3"; "eu-north-1";
    "eu-central-1"; "ca-central-1"; "ap-south-1"; "me-south-1ap-northeast-3";
    "ap-northeast-2"; "ap-southeast-1";
    "ap-southeast-2"; "ap-northeast-1"; "sa-east-1";
    "ap-east-1"; "af-south-1"; "eu-south-1" ].

(** [RotatingClientSession.__init__] (the call to [super().__init__] builds
    the plain client session and is taken to succeed). *)
Definition __init__ (target : string) (key_id key_secret host_header : option string)
    (clear_all verbose wait_all_regions : bool) : outcome RotatingClientSession :=
  let self_target :=
    if negb (Py.endswith "/" target) then target else Py.drop_last target in
  if negb (Py.startswith "http://" target) && negb (Py.startswith "https://" target)
  then Raise (ValueError "Invalid URL schema")
  else
    (self_host_header <-
       (if Py.truthy host_header then Return (default "" host_header)
        else (rest <- Py.index (Py.split1 "://" self_target) 1 ;;
              Py.index (Py.split1 "/" rest) 0)) ;;
     Return {| target := self_target;
               key_id := key_id;
               key_secret := key_secret;
               host_header := self_host_header;
               clear_all := clear_all;
               verbose := verbose;
               wait_all_regions := wait_all_regions;
               endpoints := [];
               name := "IP Rotator for " +:+ self_target;
               active := false;
               regions := default_regions;
               closed := false |})%py.

(** ** The API Gateway control plane

    One client is opened per region ([Session().client("apigateway",
    region_name=region, ...)]); its responses are given by an instance of
    [ApiGateway] over a state [S] of the region's control plane.  Each
    operation returns the decoded response or the exception that the
    client raises.  Opening the client itself ([async with]) sends nothing
    and is left out. *)

Record rest_api : Type := { api_id : string; api_name : option string }.

Record apis_page : Type := { page_items : list rest_api; page_position : option string }.

Class ApiGateway (S : Type) : Type := {
  get_rest_apis : Z → option string → S → outcome apis_page * S;
  create_rest_api : string → S → outcome string * S;
  get_resources : string → S → outcome (list string) * S;
  create_resource : string → string → string → S → outcome string * S;
  put_method : string → string → S → outcome unit * S;
  put_integration : string → string → string → S → outcome unit * S;
  create_deployment : string → string → S → outcome unit * S;
  delete_rest_api : string → S → outcome unit * S
}.

(** What a task does that can be seen from outside: the requests it sends
    to the control plane, its sleeps and the lines it prints. *)
Inductive api_call : Type :=
  | GetRestApis (limit : Z) (position : option string)
  | CreateRestApi (name : string)
  | GetResources (restApiId : string)
  | CreateResource (restApiId parentId pathPart : string)
  | PutMethod (restApiId resourceId : string)
  | PutIntegration (restApiId resourceId uri : string)
  | CreateDeployment (restApiId stageName : string)
  | DeleteRestApi (restApiId : string).

Inductive event : Type :=
  | ECall (c : api_call)
  | ESleep (seconds : Z)
  | EPrint (line : string).

Definition TooManyRequestsException : string := "TooManyRequestsException".

Definition dq : string := Eval cbv in String (Ascii.ascii_of_nat 34) EmptyString.

Declare Scope task_scope.
Delimit Scope task_scope with task.

Section Tasks.

Context {S : Type} `{!ApiGateway S}.

Record world : Type := mkWorld { client : S; trace : list event }.

(** A coroutine run to completion on its own region: [None] when the
    fuel of one of its loops runs out. *)
Definition task (A : Type) : Type := world → option (outcome A * world).

Definition ret {A} (a : A) : task A := λ w, Some (Return a, w).
Definition raise {A} (e : exn) : task A := λ w, Some (Raise e, w).
Definition diverge {A} : task A := λ _, None.

Definition bind {A B} (m : task A) (k : A → task B) : task B :=
  λ w, match m w with
       | Some (Return a, w') => k a w'
       | Some (Raise e, w') => Some (Raise e, w')
       | None => None
       end.

(** [try: m] followed by the [except] clauses [h]: [h e] is the body of
    the clause that catches [e], if one does. *)
Definition try_except {A} (m : task A) (h : exn → option (task A)) : task A :=
  λ w, match m w with
       | Some (Raise e, w') =>
           match h e with
           | Some k => k w'
           | None => Some (Raise e, w')
           end
       | r => r
       end.

Definition emit (e : event) : task unit :=
  λ w, Some (Return tt, mkWorld (client w) (trace w ++ [e])).

(** One awaited call of the client. *)
Definition call {A} (c : api_call) (op : S → outcome A * S) : task A :=
  λ w, let '(r, s) := op (client w) in
       Some (r, mkWorld s (trace w ++ [ECall c])).

Definition sleep (seconds : Z) : task unit := emit (ESleep seconds).

End Tasks.

Arguments world S : clear implicits.
Arguments task S A : clear implicits.

Notation "x <- m ;; k" := (bind m (λ x, k))
  (at level 100, m at next level, right associativity) : task_scope.
Notation "m ;; k" := (bind m (λ _, k))
  (at level 100, right associativity) : task_scope.

(** ** Endpoint provisioner and per-region teardown *)

Section Provisioner.

Context {S : Type} `{!ApiGateway S}.
Variable self : RotatingClientSession.

Definition _print_if_verbose (message : string) : task S unit :=
  if verbose self then emit (EPrint (">> " +:+ message)) else ret tt.

(** The [while not complete] loop of [_get_apis], entered with the
    current [position] and the [apis] collected so far; one unit of
    [pages] per iteration. *)
Fixpoint _get_apis_from (pages : nat) (region : string)
    (position : option string) (apis : list rest_api) : task S (list rest_api) :=
  match pages with
  | O => diverge
  | Datatypes.S pages' =>
      (r <- try_except
              (gateways <- call (GetRestApis 500 position) (get_rest_apis 500 position) ;;
               ret (inr gateways))
              (λ e, match e with
                    | ClientError _ | EndpointConnectionError =>
                        Some (_print_if_verbose
                                ("Could not get list of APIs in region "
                                 +:+ dq +:+ region +:+ dq) ;;
                              ret (inl []))
                    | _ => None
                    end) ;;
       match r with
       | inl result => ret result
       | inr gateways =>
           let apis := (apis ++ page_items gateways)%list in
           match page_position gateways with
           | None => ret apis
           | Some p => _get_apis_from pages' region (Some p) apis
           end
       end)%task
  end.

Definition _get_apis (pages : nat) (region : string) : task S (list rest_api) :=
  _get_apis_from pages region None [].

Definition _configure_api (api_id api_resource_id resource_id : string) : task S unit :=
  (call (PutMethod api_id api_resource_id) (put_method api_id api_resource_id) ;;
   call (PutIntegration api_id api_resource_id (target self))
        (put_integration api_id api_resource_id (target self)) ;;
   call (PutMethod api_id resource_id) (put_method api_id resource_id) ;;
   call (PutIntegration api_id resource_id (target self +:+ "/{proxy}"))
        (put_integration api_id resource_id (target self +:+ "/{proxy}")) ;;
   call (CreateDeployment api_id "proxy-stage") (create_deployment api_id "proxy-stage"))%task.

(** [f"{api_id}.execute-api.{region}.amazonaws.com"] *)
Definition execute_api_address (api_id region : string) : string :=
  api_id +:+ ".execute-api." +:+ region +:+ ".amazonaws.com".

(** [api.get("name", "").startswith(self.name)] *)
Definition is_own_api (api : rest_api) : bool :=
  Py.startswith (name self) (default "" (api_name api)).

(** The [try] block of [_create_api], the list-or-create operation: it
    ends either by returning from the function ([inl]) or by falling
    through with the id of the new API ([inr]). *)
Definition list_or_create (pages : nat) (region : string) (force : bool)
    : task S (option string + string) :=
  (found <- (if negb force then
               (current_apis <- _get_apis pages region ;;
                match List.find is_own_api current_apis with
                | Some api =>
                    _print_if_verbose
                      ("Found existing API for region " +:+ dq +:+ region +:+ dq) ;;
                    ret (Some (execute_api_address (api_id api) region))
                | None => ret None
                end)
             else ret None) ;;
   match found with
   | Some address => ret (inl (Some address))
   | None =>
       api_id <- call (CreateRestApi (name self)) (create_rest_api (name self)) ;;
       ret (inr api_id)
   end)%task.

(** The statements of [_create_api] after its [try] statement. *)
Definition set_up_api (api_id region : string) : task S (option string) :=
  (resources <- call (GetResources api_id) (get_resources api_id) ;;
   api_resource_id <- (match Py.index resources 0 with
                       | Return x => ret x
                       | Raise e => raise e
                       end) ;;
   resource_id <- call (CreateResource api_id api_resource_id "{proxy+}")
                       (create_resource api_id api_resource_id "{proxy+}") ;;
   _configure_api api_id api_resource_id resource_id ;;
   _print_if_verbose ("Created API with id " +:+ dq +:+ api_id +:+ dq) ;;
   ret (Some (execute_api_address api_id region)))%task.

(** What the rate-limit clause does before it calls [_create_api] again. *)
Definition back_off : task S unit :=
  (_print_if_verbose "Too many requests when creating rest API, sleeping for 3 seconds" ;;
   sleep 3)%task.

(** The [except] clauses of [_create_api]; [again] is the recursive call
    [self._create_api(region, force)]. *)
Definition create_api_except (again : task S (option string)) (region : string)
    (e : exn) : option (task S (option string + string)) :=
  match e with
  | ClientError code =>
      Some (if String.eqb code TooManyRequestsException then
              (back_off ;;
               result <- again ;;
               ret (inl result))
            else
              (_print_if_verbose
                 ("Could not create new API in region " +:+ dq +:+ region +:+ dq) ;;
               ret (inl None)))%task
  | EndpointConnectionError =>
      Some (_print_if_verbose
              ("Could not create new API in region " +:+ dq +:+ region +:+ dq) ;;
            ret (inl None))%task
  | _ => None
  end.

(** [_create_api]: one unit of [retries] per (recursive) entry. *)
Fixpoint _create_api (retries pages : nat) (region : string) (force : bool)
    : task S (option string) :=
  match retries with
  | O => diverge
  | Datatypes.S retries' =>
      (r <- try_except
              (list_or_create pages region force)
              (create_api_except (_create_api retries' pages region force) region) ;;
       match r with
       | inl result => ret result
       | inr api_id => set_up_api api_id region
       end)%task
  end.

(** The [for api in ...] loop of [_clear_region_apis]; [again] is the
    recursive call made after a rate-limit response. *)
Fixpoint _clear_region_loop (again : task S unit) (force : bool)
    (apis : list rest_api) : task S unit :=
  match apis with
  | [] => ret tt
  | api :: rest =>
      (selected <- (if force then ret true
                    else match api_name api with
                         | Some n => ret (String.eqb n (name self))
                         | None => raise (KeyError "name")
                         end) ;;
       if selected : bool then
         returned <- try_except
                       (call (DeleteRestApi (api_id api)) (delete_rest_api (api_id api)) ;;
                        ret false)
                       (λ e, match e with
                             | ClientError code =>
                                 Some (if String.eqb code TooManyRequestsException then
                                         (_print_if_verbose
                                            "Too many requests when deleting rest API, sleeping for 3 seconds" ;;
                                          sleep 3 ;;
                                          again ;;
                                          ret true)
                                       else ret false)
                             | _ => None
                             end) ;;
         if returned : bool then ret tt
         else (_print_if_verbose ("Deleted rest API with id " +:+ dq +:+ api_id api +:+ dq) ;;
               _clear_region_loop again force rest)
       else _clear_region_loop again force rest)%task
  end.

Fixpoint _clear_region_apis (retries pages : nat) (region : string) (force : bool)
    : task S unit :=
  match retries with
  | O => diverge
  | Datatypes.S retries' =>
      (apis <- _get_apis pages region ;;
       _clear_region_loop (_clear_region_apis retries' pages region force) force apis)%task
  end.

End Provisioner.

(** ** Pool orchestrator and teardown

    [start] and [_clear_apis] create one task per region.  Every task
    talks to the client of its own region, so the tasks are run one by one
    on the region's world [cp region]; what remains of the concurrency is
    the order in which they complete, given by [sched] (positions in
    [self.regions], earliest completion first). *)

Section Orchestrator.

Context {S : Type} `{!ApiGateway S}.

Definition as_completed {A} (sched : list nat) (tasks : list A) : list A :=
  omap (λ i, tasks !! i) sched.

(** What [await task] gives for a task run to completion. *)
Definition awaited_outcome {A} (r : option (outcome A * world S)) : option (outcome A) :=
  match r with
  | Some (o, _) => Some o
  | None => None
  end.

(** A line printed by the session itself, appended to [out]. *)
Definition say (self : RotatingClientSession) (message : string)
    (out : list string) : list string :=
  if verbose self then out ++ [">> " +:+ message] else out.

(** The body of the [for task in asyncio.as_completed(...)] loop of
    [start] once [await task] has returned [endpoint].  There is no
    [await] between the append and the assignment to [self.active], so no
    other coroutine sees the session in between. *)
Definition start_step (endpoint : option string) (self : RotatingClientSession)
    : RotatingClientSession :=
  match endpoint with
  | Some e =>
      let self := set_endpoints (endpoints self ++ [e]) self in
      if negb (active self) then set_active true self else self
  | None => self
  end.

Definition start_step_out (endpoint : option string) (self : RotatingClientSession)
    (out : list string) : list string :=
  match endpoint with
  | Some e => if negb (active self) then say self ("First API setup: " +:+ e) out else out
  | None => out
  end.

(** The loop over the awaited tasks: [None] is a task that never
    completes, [Raise] an exception re-raised by [await task]. *)
Fixpoint start_loop (self : RotatingClientSession)
    (awaited : list (option (outcome (option string)))) (out : list string)
    : option (outcome unit * RotatingClientSession * list string) :=
  match awaited with
  | [] => Some (Return tt, self, out)
  | None :: _ => None
  | Some (Raise e) :: _ => Some (Raise e, self, out)
  | Some (Return endpoint) :: rest =>
      start_loop (start_step endpoint self) rest (start_step_out endpoint self out)
  end.

(** The session after each completed iteration of that loop. *)
Fixpoint start_states (self : RotatingClientSession)
    (awaited : list (option (outcome (option string)))) : list RotatingClientSession :=
  match awaited with
  | Some (Return endpoint) :: rest =>
      start_step endpoint self :: start_states (start_step endpoint self) rest
  | _ => []
  end.

Definition create_tasks (retries pages : nat) (force : bool)
    (cp : string → world S) (self : RotatingClientSession)
    : list (option (outcome (option string) * world S)) :=
  (λ region, _create_api self retries pages region force (cp region)) <$> regions self.

Definition start (sched : list nat) (retries pages : nat) (force : bool)
    (cp : string → world S) (self : RotatingClientSession)
    : option (outcome unit * RotatingClientSession * list string) :=
  let out := say self ("Starting IP Rotating APIs in "
                       +:+ pretty (length (regions self)) +:+ " regions") [] in
  let tasks := create_tasks retries pages force cp self in
  match start_loop self (awaited_outcome <$> as_completed sched tasks) out with
  | Some (Return _, self', out) =>
      Some (Return tt, self',
            say self' ("API launched in " +:+ pretty (length (endpoints self'))
                       +:+ " regions out of " +:+ pretty (length (regions self'))) out)
  | r => r
  end.

(** [await asyncio.gather(...)]: the first exception in completion order
    is raised to the caller. *)
Fixpoint gather {A} (awaited : list (option (outcome A))) : option (outcome (list A)) :=
  match awaited with
  | [] => Some (Return [])
  | None :: _ => None
  | Some (Raise e) :: _ => Some (Raise e)
  | Some (Return a) :: rest =>
      match gather rest with
      | Some (Return l) => Some (Return (a :: l))
      | r => r
      end
  end.

Definition clear_tasks (retries pages : nat) (cp : string → world S)
    (self : RotatingClientSession) : list (option (outcome unit * world S)) :=
  (λ region, _clear_region_apis self retries pages region (clear_all self) (cp region))
    <$> regions self.

Definition _clear_apis (sched : list nat) (retries pages : nat)
    (cp : string → world S) (self : RotatingClientSession)
    : option (outcome unit * list string) :=
  match gather (awaited_outcome <$> as_completed sched (clear_tasks retries pages cp self)) with
  | None => None
  | Some (Raise e) => Some (Raise e, [])
  | Some (Return _) =>
      Some (Return tt, say self "All created APIs for ip rotating have been deleted" [])
  end.

(** [close]: [super().close()] marks the underlying session closed. *)
Definition close (sched : list nat) (retries pages : nat)
    (cp : string → world S) (self : RotatingClientSession)
    : option (outcome unit * RotatingClientSession * list string) :=
  match _clear_apis sched retries pages cp self with
  | None => None
  | Some (Raise e, out) => Some (Raise e, self, out)
  | Some (Return _, out) =>
      let self := set_closed true self in
      let self := set_active false self in
      Some (Return tt, self, out)
  end.

End Orchestrator.

(** ** Request router *)

(** [inet_ntoa(pack(">I", n))] *)
Definition pack_I_be (n : Z) : outcome (list Z) :=
  if ((0 <=? n) && (n <=? 0xffffffff))%Z then
    Return [Z.land (Z.shiftr n 24) 255; Z.land (Z.shiftr n 16) 255;
            Z.land (Z.shiftr n 8) 255; Z.land n 255]
  else Raise StructError.

Definition inet_ntoa (packed : list Z) : outcome string :=
  match packed with
  | [a; b; c; d] => Return (pretty a +:+ "." +:+ pretty b +:+ "." +:+ pretty c +:+ "." +:+ pretty d)
  | _ => Raise OSError
  end.

(** Values of the keyword arguments that [request] only passes on. *)
Inductive pyval : Type :=
  | PyNone
  | PyBool (b : bool)
  | PyInt (n : Z)
  | PyStr (s : string).

(** The object bound to the [headers] keyword: a [dict], or something that
    is not a [dict] (of which only the truth value matters; [None] is the
    false one). *)
Inductive headers_arg : Type :=
  | HeadersDict (d : gmap string string)
  | HeadersOther (truth : bool).

Record kwargs : Type := {
  kw_headers : option headers_arg;
  kw_others : gmap string pyval
}.

(** The call handed to [ClientSession.request]. *)
Record delegated : Type := {
  d_method : string;
  d_url : string;
  d_headers : gmap string string;
  d_kwargs : gmap string pyval
}.

(** Result of [request]: what it returns or raises, and the caller's
    [headers] object as the call leaves it (the source updates a non-empty
    [dict] in place). *)
Record routed : Type := {
  result : outcome delegated;
  caller_headers : option headers_arg
}.

Definition not_started_message : string :=
  "To send requests using the RotatingClientSession class, "
  +:+ "first call [your RotatingClientSession instance].start() "
  +:+ "or use async with RotatingClientSession(...) as session:".

(** [try: path = url.split("://", 1)[1].split("/", 1)[1]]
    [except IndexError: path = ""] *)
Definition proxied_path (url : string) : string :=
  match (rest <- Py.index (Py.split1 "://" url) 1 ;;
         Py.index (Py.split1 "/" rest) 1)%py with
  | Return p => p
  | Raise _ => ""
  end.

(** [request]; [i] is the position drawn by [choice(self.endpoints)] and
    [n] the integer drawn by [randint(1, 0xffffffff)]. *)
Definition request (self : RotatingClientSession) (i : nat) (n : Z)
    (method url : string) (kw : kwargs) : routed :=
  if Nat.eqb (length (endpoints self)) 0 then
    {| result := Raise (RuntimeError not_started_message);
       caller_headers := kw_headers kw |}
  else if negb (Py.startswith "http://" url) && negb (Py.startswith "https://" url) then
    {| result := Raise (ValueError "Invalid URL schema");
       caller_headers := kw_headers kw |}
  else
    match Py.index (endpoints self) i with
    | Raise e => {| result := Raise e; caller_headers := kw_headers kw |}
    | Return endpoint =>
        let path := proxied_path url in
        let url := "https://" +:+ endpoint +:+ "/proxy-stage/" +:+ path in
        (* [kwargs.get("headers") or dict()]: the caller's own object when
           it is a non-empty dict, a new dict otherwise *)
        let '(headers, aliased, is_dict) :=
          match kw_headers kw with
          | Some (HeadersDict d) =>
              if decide (d = ∅) then ((∅ : gmap string string), false, true)
              else (d, true, true)
          | Some (HeadersOther true) => (∅, false, false)
          | Some (HeadersOther false) | None => (∅, false, true)
          end in
        if negb is_dict then
          {| result := Raise (ValueError "Headers must be a dictionary-like object");
             caller_headers := kw_headers kw |}
        else
          let after (h : gmap string string) :=
            if aliased : bool then Some (HeadersDict h) else kw_headers kw in
          let headers := delete "X-Forwarded-For" headers in
          let headers := <["X-Host" := host_header self]> headers in
          match
            (match headers !! "X-Forwarded-For" with
             | Some v => if negb (String.eqb v "") then Return v
                         else (packed <- pack_I_be n ;; inet_ntoa packed)%py
             | None => (packed <- pack_I_be n ;; inet_ntoa packed)%py
             end)
          with
          | Raise e => {| result := Raise e; caller_headers := after headers |}
          | Return forwarded =>
              let headers := <["X-Forwarded-Header" := forwarded]> headers in
              {| result := Return {| d_method := method; d_url := url;
                                     d_headers := headers; d_kwargs := kw_others kw |};
                 caller_headers := after headers |}
          end
    end.

(** ** A scripted control plane

    An in-memory API Gateway used to run the definitions above: it keeps
    the REST APIs of one region and answers the [k]-th request with the
    [k]-th entry of a fault script when that entry is an exception. *)

Module Mock.

Record state : Type := mk {
  apis : list rest_api;
  fresh : nat;
  faults : list (option exn)
}.

Definition respond {A} (normal : list rest_api → nat → outcome A * (list rest_api * nat))
    (s : state) : outcome A * state :=
  match faults s with
  | Some e :: script => (Raise e, mk (apis s) (fresh s) script)
  | script =>
      let '(r, (l, n)) := normal (apis s) (fresh s) in
      (r, mk l n (tail script))
  end.

Definition has_id (id : string) (api : rest_api) : bool := String.eqb (api_id api) id.

#[global] Instance gateway : ApiGateway state := {|
  get_rest_apis _ _ :=
    respond (λ l n, (Return {| page_items := l; page_position := None |}, (l, n)));
  create_rest_api name :=
    respond (λ l n,
      let id := "api" +:+ pretty n in
      (Return id, ((l ++ [{| api_id := id; api_name := Some name |}])%list, Datatypes.S n)));
  get_resources id :=
    respond (λ l n,
      (if existsb (has_id id) l then Return ["root"]
       else Raise (ClientError "NotFoundException"), (l, n)));
  create_resource id _ _ :=
    respond (λ l n,
      (if existsb (has_id id) l then Return ("res" +:+ pretty n)
       else Raise (ClientError "NotFoundException"), (l, Datatypes.S n)));
  put_method id _ :=
    respond (λ l n,
      (if existsb (has_id id) l then Return tt
       else Raise (ClientError "NotFoundException"), (l, n)));
  put_integration id _ _ :=
    respond (λ l n,
      (if existsb (has_id id) l then Return tt
       else Raise (ClientError "NotFoundException"), (l, n)));
  create_deployment id _ :=
    respond (λ l n,
      (if existsb (has_id id) l then Return tt
       else Raise (ClientError "NotFoundException"), (l, n)));
  delete_rest_api id :=
    respond (λ l n,
      (if existsb (has_id id) l then Return tt
       else Raise (ClientError "NotFoundException"),
       (List.filter (λ api, negb (has_id id api)) l, n)))
|}.

(** A region that holds [l] and will answer with the faults [script]. *)
Definition region_world (l : list rest_api) (script : list (option exn)) : world state :=
  mkWorld (mk l 0 script) [].

Definition throttled : option exn := Some (ClientError TooManyRequestsException).

(** A session on [https://example.com], as [__init__] builds it. *)
Definition example_session : RotatingClientSession :=
  mkSession "https://example.com" None None "example.com" false false true []
    "IP Rotator for https://example.com" false default_regions false.

End Mock.

(** ** Dotted-quad syntax

    A recogniser for the textual form of an IPv4 address, written apart
    from [inet_ntoa]: exactly four fields separated by dots, each a
    decimal number of at most three digits without a leading zero and not
    above 255. *)

Definition is_digit (c : ascii) : bool :=
  (48 <=? nat_of_ascii c)%nat && (nat_of_ascii c <=? 57)%nat.

Fixpoint all_digits (s : string) : bool :=
  match s with
  | EmptyString => true
  | String c s' => is_digit c && all_digits s'
  end.

Fixpoint decimal_value (acc : nat) (s : string) : nat :=
  match s with
  | EmptyString => acc
  | String c s' => decimal_value (10 * acc + (nat_of_ascii c - 48)) s'
  end.

Definition is_octet (s : string) : bool :=
  match s with
  | EmptyString => false
  | String c s' =>
      all_digits s && (String.length s <=? 3)%nat && (decimal_value 0 s <=? 255)%nat
      && (negb (Ascii.eqb c "0") || String.eqb s' EmptyString)
  end.

Fixpoint split_dots (s : string) : list string :=
  match s with
  | EmptyString => [EmptyString]
  | String c s' =>
      if Ascii.eqb c "." then EmptyString :: split_dots s'
      else match split_dots s' with
           | field :: fields => String c field :: fields
           | [] => [String c EmptyString]
           end
  end.

Definition is_dotted_quad (s : string) : bool :=
  match split_dots s with
  | [a; b; c; d] => is_octet a && is_octet b && is_octet c && is_octet d
  | _ => false
  end.

(** The dotted-quad form of a 32-bit value, most significant byte first,
    by division instead of shifts and masks. *)
Definition dotted_quad (n : Z) : string :=
  pretty (n / 2 ^ 24)%Z +:+ "." +:+ pretty (n / 2 ^ 16 mod 256)%Z +:+ "."
  +:+ pretty (n / 2 ^ 8 mod 256)%Z +:+ "." +:+ pretty (n mod 256)%Z.

Fixpoint contains_char (c : ascii) (s : string) : bool :=
  match s with
  | EmptyString => false
  | String c' s' => Ascii.eqb c c' || contains_char c s'
  end.

(** What the caller put under ["X-Forwarded-For"], if anything. *)
Definition caller_forwarded_for (kw : kwargs) : option string :=
  match kw_headers kw with
  | Some (HeadersDict d) => d !! "X-Forwarded-For"
  | _ => None
  end.

(** The entries of the caller's [headers], none when it is not a [dict]. *)
Definition caller_entries (kw : kwargs) : gmap string string :=
  match kw_headers kw with
  | Some (HeadersDict d) => d
  | _ => ∅
  end.

(** The [headers] keyword is absent, falsy, or a [dict]. *)
Definition headers_is_mapping (kw : kwargs) : bool :=
  match kw_headers kw with
  | Some (HeadersOther true) => false
  | _ => true
  end.

(** A header of the outgoing call, when there is one. *)
Definition outgoing_header (r : routed) (key : string) : option string :=
  match result r with
  | Return c => d_headers c !! key
  | Raise _ => None
  end.

(** ** Results of a provisioning run *)

Definition is_endpoint (r : option (outcome (option string))) : bool :=
  match r with
  | Some (Return (Some _)) => true
  | _ => false
  end.

(** The endpoints among the awaited results, in the order of completion. *)
Definition delivered (awaited : list (option (outcome (option string)))) : list string :=
  omap (λ r, match r with
             | Some (Return (Some e)) => Some e
             | _ => None
             end) awaited.

(** ** Events of a task

    A task only ever appends to the trace and never reads it: run on a
    world with trace [t] it does what it does on the empty trace, with [t]
    in front.  [frames P m] says so, and that every event [m] appends
    satisfies [P]. *)

Definition quiet_listing (e : event) : bool :=
  match e with
  | ECall (GetRestApis _ _) | EPrint _ => true
  | _ => false
  end.

Definition is_sleep (e : event) : bool :=
  match e with
  | ESleep _ => true
  | _ => false
  end.


Section Traces.

Context {S : Type} `{!ApiGateway S}.

Definition prepend {A} (t : list event) (x : option (outcome A * world S))
    : option (outcome A * world S) :=
  match x with
  | Some (r, w) => Some (r, mkWorld (client w) (t ++ trace w))
  | None => None
  end.

Definition frames {A} (P : event → bool) (m : task S A) : Prop :=
  ∀ s t, m (mkWorld s t) = prepend t (m (mkWorld s []))
         ∧ match m (mkWorld s []) with
           | Some (_, w) => forallb P (trace w) = true
           | None => True
           end.

End Traces.

(** ** Rate-limited creation *)

Section RateLimiting.

Context {S : Type} `{!ApiGateway S}.
Variable self : RotatingClientSession.

(** The state in which [_create_api] reaches its call of
    [create_rest_api]: at once when [force] is set, after a listing that
    shows no API of this session otherwise. *)
Definition before_create (pages : nat) (region : string) (force : bool)
    (w w0 : world S) : Prop :=
  if force then w0 = w
  else ∃ apis, _get_apis self pages region w = Some (Return apis, w0)
               ∧ List.find (is_own_api self) apis = None.



End RateLimiting.

(** The values a byte can take. *)
Definition octets : list Z := Z.of_nat <$> seq 0 256.


(** ** Paginated listings *)

Section Pagination.

Context {S : Type} `{!ApiGateway S}.

(** The listing requests that fetch the pages [ps], the first one sent
    with [position] and each later one with the token of the page before. *)
Fixpoint listing_calls (position : option string) (ps : list apis_page) : list event :=
  match ps with
  | [] => []
  | page :: rest => ECall (GetRestApis 500 position) :: listing_calls (page_position page) rest
  end.

(** [served position s ps position' s']: asked from [position] on, the
    control plane in state [s] hands out the pages [ps], each with a
    continuation token, and is then in state [s'] with [position'] the
    token to ask with next. *)
Inductive served : option string → S → list apis_page → option string → S → Prop :=
  | served_nil position s : served position s [] position s
  | served_cons position s page token s1 ps position' s' :
      get_rest_apis 500 position s = (Return page, s1) →
      page_position page = Some token →
      served (Some token) s1 ps position' s' →
      served position s (page :: ps) position' s'.

End Pagination.

(** ** Selection for deletion *)

(** [force or api["name"] == self.name], for an API that has a name or
    under [force]. *)
Definition selected_for_deletion (self : RotatingClientSession) (force : bool)
    (api : rest_api) : bool :=
  force || match api_name api with
           | Some n => String.eqb n (name self)
           | None => false
           end.

(** The API has a name, which is not [self.name], and [force] is off: the
    loop of [_clear_region_apis] goes on to the next one. *)
Definition passed_over (self : RotatingClientSession) (force : bool)
    (api : rest_api) : bool :=
  negb force && match api_name api with
                | Some n => negb (String.eqb n (name self))
                | None => false
                end.

(** The ids of the deletion requests in a trace, in order. *)
Definition deleted_ids (evs : list event) : list string :=
  omap (λ e, match e with
             | ECall (DeleteRestApi id) => Some id
             | _ => None
             end) evs.

Definition no_listing (e : event) : bool :=
  match e with
  | ECall (GetRestApis _ _) => false
  | _ => true
  end.

Definition no_deletion (e : event) : bool :=
  match e with
  | ECall (DeleteRestApi _) => false
  | _ => true
  end.

(** ** Entering and leaving the session *)

Section Acquisition.

Context {S : Type} `{!ApiGateway S}.

(** The session found by a check of [self.active] made when the loop of
    [start] has completed [p] iterations ([sts] are the states after each
    of them); the last state when the loop has ended before. *)
Definition observed (self : RotatingClientSession) (sts : list RotatingClientSession)
    (p : nat) : RotatingClientSession :=
  default (List.last sts self) ((self :: sts) !! p).

(** [while not self.active: await asyncio.sleep(0)]: one element of
    [polls] per check; [None] when no check finds the session active. *)
Fixpoint wait_until_active (self : RotatingClientSession)
    (sts : list RotatingClientSession) (polls : list nat) : option RotatingClientSession :=
  match polls with
  | [] => None
  | p :: polls' =>
      let s := observed self sts p in
      if negb (active s) then wait_until_active self sts polls' else Some s
  end.

(** [__aenter__].  [asyncio.create_task] only schedules [start], so the
    first check of [self.active] sees the session as it is; [polls] gives,
    for every later check, the number of iterations [start] has completed
    by then.  The lines printed meanwhile are those of [start]. *)
Definition __aenter__ (sched : list nat) (retries pages : nat)
    (cp : string → world S) (polls : list nat) (self : RotatingClientSession)
    : option (outcome unit * RotatingClientSession) :=
  if wait_all_regions self then
    match start sched retries pages false cp self with
    | Some (r, self', _) => Some (r, self')
    | None => None
    end
  else
    let awaited := awaited_outcome <$> as_completed sched
                     (create_tasks retries pages false cp self) in
    match wait_until_active self (start_states self awaited) (0 :: polls) with
    | Some s => Some (Return tt, s)
    | None => None
    end.

(** [__aexit__] *)
Definition __aexit__ (sched : list nat) (retries pages : nat)
    (cp : string → world S) (self : RotatingClientSession)
    : option (outcome unit * RotatingClientSession * list string) :=
  close sched retries pages cp self.

End Acquisition.

(** ** The per-method calls

    Each of them passes its keyword on to [request]; the defaults of the
    source are [allow_redirects=True] for [get] and [options],
    [allow_redirects=False] for [head] and [data=None] for [post], [put]
    and [patch]. *)

Module Verbs.

Definition with_kwarg (key : string) (v : pyval) (kw : kwargs) : kwargs :=
  {| kw_headers := kw_headers kw; kw_others := <[key := v]> (kw_others kw) |}.

Definition get (self : RotatingClientSession) (i : nat) (n : Z) (url : string)
    (allow_redirects : bool) (kw : kwargs) : routed :=
  request self i n "GET" url (with_kwarg "allow_redirects" (PyBool allow_redirects) kw).

Definition options (self : RotatingClientSession) (i : nat) (n : Z) (url : string)
    (allow_redirects : bool) (kw : kwargs) : routed :=
  request self i n "OPTIONS" url (with_kwarg "allow_redirects" (PyBool allow_redirects) kw).

Definition head (self : RotatingClientSession) (i : nat) (n : Z) (url : string)
    (allow_redirects : bool) (kw : kwargs) : routed :=
  request self i n "HEAD" url (with_kwarg "allow_redirects" (PyBool allow_redirects) kw).

Definition post (self : RotatingClientSession) (i : nat) (n : Z) (url : string)
    (data : pyval) (kw : kwargs) : routed :=
  request self i n "POST" url (with_kwarg "data" data kw).

Definition put (self : RotatingClientSession) (i : nat) (n : Z) (url : string)
    (data : pyval) (kw : kwargs) : routed :=
  request self i n "PUT" url (with_kwarg "data" data kw).

Definition patch (self : RotatingClientSession) (i : nat) (n : Z) (url : string)
    (data : pyval) (kw : kwargs) : routed :=
  request self i n "PATCH" url (with_kwarg "data" data kw).

Definition delete (self : RotatingClientSession) (i : nat) (n : Z) (url : string)
    (kw : kwargs) : routed :=
  request self i n "DELETE" url kw.

End Verbs.

(** ** A paginating control plane

    A region that answers listing requests from a table of pages keyed by
    continuation token and refuses every other request. *)

Module Pager.

Record state : Type := mk { pages : list (option string * apis_page) }.

Definition page_at (position : option string) (s : state) : outcome apis_page :=
  match List.find (λ entry, bool_decide (fst entry = position)) (pages s) with
  | Some (_, page) => Return page
  | None => Raise (ClientError "BadRequestException")
  end.

Definition refused {A} (s : state) : outcome A * state :=
  (Raise (ClientError "AccessDeniedException"), s).

#[global] Instance gateway : ApiGateway state := {|
  get_rest_apis _ position s := (page_at position s, s);
  create_rest_api _ := refused;
  get_resources _ := refused;
  create_resource _ _ _ := refused;
  put_method _ _ := refused;
  put_integration _ _ _ := refused;
  create_deployment _ _ := refused;
  delete_rest_api _ := refused
|}.

Definition own : rest_api :=
  {| api_id := "abc"; api_name := Some "IP Rotator for https://example.com" |}.

Definition other : rest_api := {| api_id := "xyz"; api_name := Some "billing" |}.

(** Two pages: [other] with the token ["t1"], then [own]. *)
Definition two_pages : state :=
  mk [ (None, {| page_items := [other]; page_position := Some "t1" |});
       (Some "t1", {| page_items := [own]; page_position := None |}) ].

End Pager.

(** ** The random draw of [request] *)

(** A value returned by [random._randbelow(n)]: an integer of [0, n). *)
Definition below (n : Z) : Type := { k : Z | (0 ≤ k < n)%Z }.

(** [randint(a, b)], which the [random] module computes as
    [a + _randbelow(b - a + 1)]; [k] is what [_randbelow] returns. *)
Definition randint (a b : Z) (k : below (b - a + 1)) : Z := (a + proj1_sig k)%Z.

(** [request] with the integer that [randint(1, 0xffffffff)] returns in
    it. *)
Definition request_drawing (self : RotatingClientSession) (i : nat)
    (k : below (0xffffffff - 1 + 1)) (method url : string) (kw : kwargs) : routed :=
  request self i (randint 1 0xffffffff k) method url kw.

(** ** The path and query of a URL

    The part of a URL that follows its host, read as a URL is read: the
    host ends at the first slash, question mark or hash after ["://"];
    what follows a slash there is the path with the query, and there is
    no path when no slash stands there. *)




(** * Properties *)

(** ** Facts about the string operations *)

Section PyFacts.

Lemma app_nil_l (b : string) : "" +:+ b = b.
Proof. reflexivity. Qed.

Lemma app_cons c (a b : string) : String c a +:+ b = String c (a +:+ b).
Proof. reflexivity. Qed.

Lemma endswith_eq suf s :
  Py.endswith suf s =
  String.eqb suf s || match s with
                      | EmptyString => false
                      | String _ s' => Py.endswith suf s'
                      end.
Proof. destruct s; reflexivity. Qed.

Lemma endswith_app suf p : Py.endswith suf (p +:+ suf) = true.
Proof.
  induction p as [|c p IH].
  - simpl. rewrite endswith_eq, String.eqb_refl. reflexivity.
  - rewrite endswith_eq. simpl. rewrite IH. apply orb_true_r.
Qed.

Lemma endswith_inv suf s : Py.endswith suf s = true → ∃ p, s = p +:+ suf.
Proof.
  induction s as [|c s IH]; rewrite endswith_eq; intros H.
  - apply orb_true_iff in H as [H|H]; [|discriminate].
    apply String.eqb_eq in H. subst. by exists "".
  - apply orb_true_iff in H as [H|H].
    + apply String.eqb_eq in H. subst. by exists "".
    + destruct (IH H) as [p ->]. by exists (String c p).
Qed.

Lemma drop_last_snoc p c : Py.drop_last (p +:+ String c "") = p.
Proof.
  induction p as [|c' p IH]; [reflexivity|].
  simpl. rewrite IH. destruct p; reflexivity.
Qed.

Lemma app_assoc_str (a b c : string) : (a +:+ b) +:+ c = a +:+ (b +:+ c).
Proof.
  induction a as [|x a IH]; [reflexivity|].
  by rewrite !app_cons, IH.
Qed.

(** Dropping the last character of a string that ends with one slash
    but not with two leaves no trailing slash. *)
Lemma drop_last_no_slash s :
  Py.endswith "/" s = true → Py.endswith "//" s = false →
  Py.endswith "/" (Py.drop_last s) = false.
Proof.
  intros H1 H2. apply endswith_inv in H1 as [p ->].
  rewrite drop_last_snoc.
  destruct (Py.endswith "/" p) eqn:Hp; [|reflexivity].
  apply endswith_inv in Hp as [q ->].
  rewrite app_assoc_str in H2.
  change ("/" +:+ "/") with "//" in H2.
  by rewrite (endswith_app "//" q) in H2.
Qed.

Lemma prefix_nil s : String.prefix "" s = true.
Proof. by destruct s. Qed.

Lemma partition_char_cons c c' s :
  Py.partition (String c "") (String c' s) =
  if Ascii.eqb c c' then Some ("", s)
  else match Py.partition (String c "") s with
       | Some (a, b) => Some (String c' a, b)
       | None => None
       end.
Proof.
  simpl. destruct (Ascii.ascii_dec c c') as [->|Hne].
  - by rewrite prefix_nil, Ascii.eqb_refl.
  - apply Ascii.eqb_neq in Hne. by rewrite Hne.
Qed.

Lemma partition_no_sep c host rest :
  contains_char c host = false →
  Py.partition (String c "") (host +:+ String c rest) = Some (host, rest).
Proof.
  induction host as [|c' host IH]; intros H.
  - by rewrite app_nil_l, partition_char_cons, Ascii.eqb_refl.
  - simpl in H. apply orb_false_iff in H as [Hc Hh].
    by rewrite app_cons, partition_char_cons, Hc, (IH Hh).
Qed.

Lemma partition_absent c s :
  contains_char c s = false → Py.partition (String c "") s = None.
Proof.
  induction s as [|c' s IH]; intros H; [reflexivity|].
  simpl in H. apply orb_false_iff in H as [Hc Hs].
  by rewrite partition_char_cons, Hc, (IH Hs).
Qed.

(** The text after the scheme of a URL. *)
Lemma split1_http rest : Py.split1 "://" ("http://" +:+ rest) = ["http"; rest].
Proof.
  unfold Py.split1. rewrite !app_cons, app_nil_l. simpl.
  by rewrite prefix_nil.
Qed.

Lemma split1_https rest : Py.split1 "://" ("https://" +:+ rest) = ["https"; rest].
Proof.
  unfold Py.split1. rewrite !app_cons, app_nil_l. simpl.
  by rewrite prefix_nil.
Qed.

Lemma startswith_app p s : Py.startswith p (p +:+ s) = true.
Proof.
  unfold Py.startswith. induction p as [|c p IH]; [apply prefix_nil|].
  rewrite app_cons. simpl. by destruct (Ascii.ascii_dec c c).
Qed.

End PyFacts.

(** ** Construction *)

(** The regions are pairwise distinct, so no two tasks of a run share a
    control plane. *)
Lemma default_regions_distinct : NoDup default_regions ∧ length default_regions = 20.
Proof.
  split; [|reflexivity].
  apply (bool_decide_unpack (NoDup default_regions)). vm_compute. exact I.
Qed.

Example init_ipinfo :
  __init__ "https://ipinfo.io/" None None None false false true
  = Return (mkSession "https://ipinfo.io" None None "ipinfo.io" false false true []
              "IP Rotator for https://ipinfo.io" false default_regions false).
Proof. reflexivity. Qed.

Example init_two_slashes :
  target <$> (match __init__ "https://a//" None None None false false true with
              | Return s => Some s | Raise _ => None end) = Some "https://a/".
Proof. reflexivity. Qed.

Example init_bare_scheme :
  __init__ "http://" None None None false false true = Raise IndexError.
Proof. reflexivity. Qed.

Section Construction.

Variables (url : string) (kid ksecret hh : option string) (ca vb war : bool).

Lemma init_value_error_iff :
  (∃ msg, __init__ url kid ksecret hh ca vb war = Raise (ValueError msg)) ↔
  Py.startswith "http://" url = false ∧ Py.startswith "https://" url = false.
Proof.
  unfold __init__.
  destruct (Py.startswith "http://" url), (Py.startswith "https://" url); simpl.
  1-3: split; [|intros [??]; discriminate].
  1-3: intros [msg H]; exfalso;
    destruct (Py.truthy hh); [discriminate|];
    destruct (Py.index _ 1) as [rest|e] eqn:E1; simpl in H;
    [ destruct (Py.index _ 0) as [x|e] eqn:E0; simpl in H; [discriminate|];
      unfold Py.index in E0; destruct (_ !! 0); congruence
    | unfold Py.index in E1; destruct (_ !! 1); congruence ].
  split; [done|]. intros _. by eexists.
Qed.

Lemma init_target self :
  __init__ url kid ksecret hh ca vb war = Return self →
  target self = if Py.endswith "/" url then Py.drop_last url else url.
Proof.
  unfold __init__.
  destruct (negb (Py.startswith "http://" url) && negb (Py.startswith "https://" url));
    [discriminate|].
  destruct (if Py.truthy hh then _ else _) as [h|e]; simpl; [|discriminate].
  intros [= <-]. simpl. by destruct (Py.endswith "/" url).
Qed.

Lemma init_fresh self :
  __init__ url kid ksecret hh ca vb war = Return self →
  endpoints self = [] ∧ active self = false ∧ regions self = default_regions.
Proof.
  unfold __init__.
  destruct (negb (Py.startswith "http://" url) && negb (Py.startswith "https://" url));
    [discriminate|].
  destruct (if Py.truthy hh then _ else _) as [h|e]; simpl; [|discriminate].
  by intros [= <-].
Qed.

End Construction.

(** C9, as the claim has it, fails: a target with two trailing slashes is
    accepted and the stored target origin still ends with a slash. *)
Lemma init_two_trailing_slashes :
  ∃ self, __init__ "https://a//" None None None false false true = Return self
          ∧ Py.endswith "/" (target self) = true.
Proof. eexists. split; reflexivity. Qed.

(** C9 (amended): construction raises [ValueError] exactly when the target
    begins with neither ["http://"] nor ["https://"]; when it succeeds, the
    stored target origin is the target with one trailing slash removed, so
    it ends with no slash provided the target does not end with two. *)
Theorem init_scheme_and_one_slash (url : string) (kid ksecret hh : option string)
    (ca vb war : bool) :
  ((∃ msg, __init__ url kid ksecret hh ca vb war = Raise (ValueError msg)) ↔
   Py.startswith "http://" url = false ∧ Py.startswith "https://" url = false)
  ∧ ∀ self, __init__ url kid ksecret hh ca vb war = Return self →
      target self = (if Py.endswith "/" url then Py.drop_last url else url)
      ∧ (Py.endswith "//" url = false → Py.endswith "/" (target self) = false).
Proof.
  split; [apply init_value_error_iff|].
  intros self Hself. pose proof (init_target _ _ _ _ _ _ _ _ Hself) as Ht.
  split; [exact Ht|]. intros H2. rewrite Ht.
  destruct (Py.endswith "/" url) eqn:H1; [|exact H1].
  by apply drop_last_no_slash.
Qed.

Lemma init_scheme_and_one_slash_witness :
  (∃ msg, __init__ "ftp://a/" None None None false false true = Raise (ValueError msg))
  ∧ ∃ self, __init__ "https://a/" None None None false false true = Return self
            ∧ Py.endswith "/" (target self) = false.
Proof.
  split.
  - apply (init_scheme_and_one_slash "ftp://a/" None None None false false true).
    split; reflexivity.
  - eexists. split; [reflexivity|].
    apply (init_scheme_and_one_slash "https://a/" None None None false false true);
      reflexivity.
Defined.

(** ** The address written by [inet_ntoa] *)

Section DottedQuad.

Lemma octets_checked :
  forallb (λ b, is_octet (pretty b) && negb (contains_char "." (pretty b))) octets = true.
Proof. vm_compute. reflexivity. Qed.

Lemma octet_pretty (b : Z) :
  (0 ≤ b < 256)%Z → is_octet (pretty b) = true ∧ contains_char "." (pretty b) = false.
Proof.
  intros Hb. pose proof octets_checked as H.
  rewrite forallb_forall in H.
  specialize (H b). rewrite andb_true_iff, negb_true_iff in H. apply H.
  unfold octets. apply in_map_iff. exists (Z.to_nat b). split; [lia|].
  apply in_seq. lia.
Qed.

Lemma split_dots_cons c s :
  split_dots (String c s) =
  if Ascii.eqb c "." then EmptyString :: split_dots s
  else match split_dots s with
       | field :: fields => String c field :: fields
       | [] => [String c EmptyString]
       end.
Proof. reflexivity. Qed.

Lemma contains_char_cons c c' s :
  contains_char c (String c' s) = Ascii.eqb c c' || contains_char c s.
Proof. reflexivity. Qed.

Lemma split_dots_field a :
  contains_char "." a = false → split_dots a = [a].
Proof.
  induction a as [|c a IH]; intros H; [reflexivity|].
  rewrite contains_char_cons in H. apply orb_false_iff in H as [Hc Ha].
  rewrite split_dots_cons, Ascii.eqb_sym, Hc. by rewrite (IH Ha).
Qed.

Lemma split_dots_app a rest :
  contains_char "." a = false →
  split_dots (a +:+ "." +:+ rest) = a :: split_dots rest.
Proof.
  induction a as [|c a IH]; intros H.
  - reflexivity.
  - rewrite contains_char_cons in H. apply orb_false_iff in H as [Hc Ha].
    rewrite app_cons, split_dots_cons, Ascii.eqb_sym, Hc. by rewrite (IH Ha).
Qed.

Lemma split_dots_quad a b c d :
  (0 ≤ a < 256)%Z → (0 ≤ b < 256)%Z → (0 ≤ c < 256)%Z → (0 ≤ d < 256)%Z →
  split_dots (pretty a +:+ "." +:+ pretty b +:+ "." +:+ pretty c +:+ "." +:+ pretty d)
  = [pretty a; pretty b; pretty c; pretty d].
Proof.
  intros Ha Hb Hc Hd.
  rewrite !split_dots_app by (by apply octet_pretty).
  rewrite split_dots_field by (by apply octet_pretty). reflexivity.
Qed.

Lemma byte_of_shift (n : Z) (k : Z) :
  (0 ≤ k)%Z → Z.land (Z.shiftr n k) 255 = ((n / 2 ^ k) mod 256)%Z.
Proof.
  intros Hk. rewrite Z.shiftr_div_pow2 by done.
  change 255%Z with (Z.ones 8). by rewrite Z.land_ones.
Qed.

Lemma inet_ntoa_pack (n : Z) :
  (0 ≤ n ≤ 0xffffffff)%Z →
  (packed <- pack_I_be n ;; inet_ntoa packed)%py = Return (dotted_quad n).
Proof.
  intros Hn. unfold pack_I_be.
  replace ((0 <=? n)%Z && (n <=? 0xffffffff)%Z) with true
    by (symmetry; apply andb_true_iff; split; apply Z.leb_le; lia).
  simpl. unfold dotted_quad.
  rewrite !byte_of_shift by lia.
  rewrite (Z.mod_small (n / 2 ^ 24) 256).
  2:{ split; [apply Z.div_pos; lia|]. apply Z.div_lt_upper_bound; lia. }
  change (Z.land n 255) with (Z.land n (Z.ones 8)).
  by rewrite Z.land_ones.
Qed.

Lemma dotted_quad_bytes (n : Z) :
  (0 ≤ n ≤ 0xffffffff)%Z →
  split_dots (dotted_quad n)
  = [pretty (n / 2 ^ 24)%Z; pretty (n / 2 ^ 16 mod 256)%Z;
     pretty (n / 2 ^ 8 mod 256)%Z; pretty (n mod 256)%Z].
Proof.
  intros Hn. unfold dotted_quad. apply split_dots_quad.
  - split; [apply Z.div_pos; lia|]. apply Z.div_lt_upper_bound; lia.
  - apply Z.mod_pos_bound; lia.
  - apply Z.mod_pos_bound; lia.
  - apply Z.mod_pos_bound; lia.
Qed.

Lemma dotted_quad_syntax (n : Z) :
  (0 ≤ n ≤ 0xffffffff)%Z → is_dotted_quad (dotted_quad n) = true.
Proof.
  intros Hn. unfold is_dotted_quad. rewrite dotted_quad_bytes by done.
  rewrite !andb_true_iff. repeat split; apply octet_pretty.
  - split; [apply Z.div_pos; lia|]. apply Z.div_lt_upper_bound; lia.
  - apply Z.mod_pos_bound; lia.
  - apply Z.mod_pos_bound; lia.
  - apply Z.mod_pos_bound; lia.
Qed.

Lemma dotted_quad_zero (n : Z) :
  (0 ≤ n ≤ 0xffffffff)%Z → dotted_quad n = "0.0.0.0" → n = 0%Z.
Proof.
  intros Hn H. apply (f_equal split_dots) in H.
  rewrite dotted_quad_bytes in H by done.
  change (split_dots "0.0.0.0") with [pretty 0%Z; pretty 0%Z; pretty 0%Z; pretty 0%Z] in H.
  injection H as H3 H2 H1 H0.
  apply (inj pretty) in H3, H2, H1, H0.
  change (2 ^ 24)%Z with 16777216%Z in H3.
  change (2 ^ 16)%Z with 65536%Z in H2.
  change (2 ^ 8)%Z with 256%Z in H1.
  Z.to_euclidean_division_equations. lia.
Qed.

End DottedQuad.

(** ** Routing *)

Section Routing.

Variable self : RotatingClientSession.



Lemma scheme_accepted scheme rest :
  scheme = "http" ∨ scheme = "https" →
  Py.startswith "http://" (scheme +:+ "://" +:+ rest)
  || Py.startswith "https://" (scheme +:+ "://" +:+ rest) = true.
Proof.
  intros [-> | ->].
  - change ("http" +:+ "://" +:+ rest) with ("http://" +:+ rest).
    by rewrite startswith_app.
  - change ("https" +:+ "://" +:+ rest) with ("https://" +:+ rest).
    rewrite (startswith_app "https://"). apply orb_true_r.
Qed.

(** The call that [request] hands over once its checks have passed. *)
Lemma request_delegates i n method url kw e :
  endpoints self !! i = Some e →
  Py.startswith "http://" url || Py.startswith "https://" url = true →
  headers_is_mapping kw = true →
  (0 ≤ n ≤ 0xffffffff)%Z →
  result (request self i n method url kw)
  = Return {| d_method := method;
              d_url := "https://" +:+ e +:+ "/proxy-stage/" +:+ proxied_path url;
              d_headers := <["X-Forwarded-Header" := dotted_quad n]>
                             (<["X-Host" := host_header self]>
                                (delete "X-Forwarded-For" (caller_entries kw)));
              d_kwargs := kw_others kw |}.
Proof.
  intros He Hurl Hmap Hn. unfold request.
  destruct (endpoints self) as [|e0 es] eqn:Hes; [done|]. simpl length.
  change (Nat.eqb (Datatypes.S (length es)) 0) with false. cbv iota.
  apply orb_true_iff in Hurl.
  replace (negb (Py.startswith "http://" url) && negb (Py.startswith "https://" url))
    with false by (destruct Hurl as [-> | ->]; simpl; by rewrite ?andb_false_r).
  unfold Py.index at 1. rewrite He.
  unfold headers_is_mapping, caller_entries in *.
  pose proof (inet_ntoa_pack n Hn) as Hip.
  destruct (kw_headers kw) as [[d|[]]|]; try done.
  - destruct (decide (d = ∅)) as [->|Hd]; simpl;
      rewrite lookup_insert_ne, lookup_delete_eq by done; by rewrite Hip.
  - simpl. rewrite lookup_insert_ne, lookup_delete_eq by done. by rewrite Hip.
  - simpl. rewrite lookup_insert_ne, lookup_delete_eq by done. by rewrite Hip.
Qed.

Lemma request_forwarded_header i n method url kw e :
  endpoints self !! i = Some e →
  Py.startswith "http://" url || Py.startswith "https://" url = true →
  headers_is_mapping kw = true →
  (0 ≤ n ≤ 0xffffffff)%Z →
  outgoing_header (request self i n method url kw) "X-Forwarded-Header"
  = Some (dotted_quad n).
Proof.
  intros He Hurl Hmap Hn. unfold outgoing_header.
  rewrite (request_delegates i n method url kw e) by done.
  simpl. by rewrite lookup_insert_eq.
Qed.

End Routing.

(** C8: while the endpoint set is empty, [request] raises the
    "not started" [RuntimeError] whatever the URL, the headers and the
    random draws are; nothing is handed to the HTTP client and the
    caller's headers are left as they were. *)
Theorem request_before_start (self : RotatingClientSession) (i : nat) (n : Z)
    (method url : string) (kw : kwargs) :
  endpoints self = [] →
  request self i n method url kw
  = {| result := Raise (RuntimeError not_started_message);
       caller_headers := kw_headers kw |}.
Proof. intros H. unfold request. by rewrite H. Qed.

Lemma request_before_start_witness :
  request Mock.example_session 0 7 "GET" "ftp://origin/a"
    {| kw_headers := Some (HeadersDict {["X-Forwarded-For" := "1.2.3.4"]});
       kw_others := ∅ |}
  = {| result := Raise (RuntimeError not_started_message);
       caller_headers := Some (HeadersDict {["X-Forwarded-For" := "1.2.3.4"]}) |}.
Proof. apply (request_before_start Mock.example_session). reflexivity. Defined.







(** C3: a caller-supplied ["X-Forwarded-For"] of ["1.2.3.4"] does not reach
    the outgoing ["X-Forwarded-Header"], which carries the address made
    from the random draw (here the draw [1]). *)
Theorem request_drops_caller_forwarded_for :
  let kw := {| kw_headers := Some (HeadersDict {["X-Forwarded-For" := "1.2.3.4"]});
               kw_others := ∅ |} in
  caller_forwarded_for kw = Some "1.2.3.4"
  ∧ outgoing_header
      (request (set_endpoints ["e1"] Mock.example_session) 0 1 "GET"
         "https://origin/a/b?x=1" kw) "X-Forwarded-Header" = Some "0.0.0.1".
Proof.
  split; [reflexivity|].
  rewrite (request_forwarded_header _ 0 1 "GET" _ _ "e1"); [reflexivity..|lia].
Qed.

(** The address made from a draw [n] of the range of [randint]. *)
Lemma request_address_of_draw (self : RotatingClientSession) (i : nat) (n : Z)
    (method url : string) (kw : kwargs) (e : string) :
  endpoints self !! i = Some e →
  Py.startswith "http://" url || Py.startswith "https://" url = true →
  headers_is_mapping kw = true →
  (1 ≤ n ≤ 0xffffffff)%Z →
  ∃ ip, outgoing_header (request self i n method url kw) "X-Forwarded-Header" = Some ip
        ∧ ip = dotted_quad n
        ∧ is_dotted_quad ip = true
        ∧ ip ≠ "0.0.0.0".
Proof.
  intros He Hurl Hmap Hn. exists (dotted_quad n). split; [|split; [done|split]].
  - apply (request_forwarded_header self i n method url kw e); auto. lia.
  - apply dotted_quad_syntax. lia.
  - intros H0. apply dotted_quad_zero in H0; lia.
Qed.

(** What [randint(1, 0xffffffff)] returns lies in [1, 0xffffffff]. *)
Lemma randint_range (k : below (0xffffffff - 1 + 1)) :
  (1 ≤ randint 1 0xffffffff k ≤ 0xffffffff)%Z.
Proof. unfold randint. destruct k as [k Hk]. simpl. lia. Qed.

(** C10: when the caller supplied no forwarded-for value, the outgoing
    ["X-Forwarded-Header"] is the dotted-quad form of the integer that
    [randint(1, 0xffffffff)] returns, which lies in [1, 2^32 - 1]; it is
    well-formed and is not ["0.0.0.0"].  Every integer of that range is
    returned for exactly one value of [_randbelow], so the integer is
    drawn as evenly as [_randbelow] draws. *)
Theorem request_synthesizes_address (self : RotatingClientSession) (i : nat)
    (k : below (0xffffffff - 1 + 1)) (method url : string) (kw : kwargs) (e : string) :
  endpoints self !! i = Some e →
  Py.startswith "http://" url || Py.startswith "https://" url = true →
  headers_is_mapping kw = true →
  caller_forwarded_for kw = None →
  (1 ≤ randint 1 0xffffffff k ≤ 2 ^ 32 - 1)%Z
  ∧ (∃ ip, outgoing_header (request_drawing self i k method url kw) "X-Forwarded-Header"
           = Some ip
           ∧ ip = dotted_quad (randint 1 0xffffffff k)
           ∧ is_dotted_quad ip = true
           ∧ ip ≠ "0.0.0.0")
  ∧ (∀ n, (1 ≤ n ≤ 2 ^ 32 - 1)%Z → ∃ k' , randint 1 0xffffffff k' = n)
  ∧ (∀ k1 k2, randint 1 0xffffffff k1 = randint 1 0xffffffff k2 →
              proj1_sig k1 = proj1_sig k2).
Proof.
  intros He Hurl Hmap _. pose proof (randint_range k) as Hn.
  split; [lia|]. split; [|split].
  - unfold request_drawing.
    by apply (request_address_of_draw self i _ method url kw e).
  - intros n Hn'.
    assert (0 ≤ n - 1 < 0xffffffff - 1 + 1)%Z as Hk by lia.
    exists (exist _ (n - 1)%Z Hk). unfold randint. simpl. lia.
  - intros [k1 H1] [k2 H2]. unfold randint. simpl. lia.
Qed.

Lemma request_synthesizes_address_witness :
  ∃ (k : below (0xffffffff - 1 + 1)) ip,
    proj1_sig k = 0xC0A80000%Z
    ∧ outgoing_header
        (request_drawing (set_endpoints ["e1"] Mock.example_session) 0 k "GET"
           "https://origin/a" {| kw_headers := None; kw_others := ∅ |})
        "X-Forwarded-Header" = Some ip
    ∧ ip = dotted_quad (randint 1 0xffffffff k)
    ∧ is_dotted_quad ip = true
    ∧ ip ≠ "0.0.0.0".
Proof.
  assert (0 ≤ 0xC0A80000 < 0xffffffff - 1 + 1)%Z as Hk by lia.
  exists (exist _ 0xC0A80000%Z Hk).
  destruct (request_synthesizes_address (set_endpoints ["e1"] Mock.example_session) 0
              (exist _ 0xC0A80000%Z Hk) "GET" "https://origin/a"
              {| kw_headers := None; kw_others := ∅ |} "e1" eq_refl eq_refl eq_refl eq_refl)
    as (_ & (ip & Hip) & _).
  exists ip. split; [reflexivity|exact Hip].
Defined.

(** ** The provisioning run *)

Section ProvisioningRun.

Implicit Types (self s : RotatingClientSession).
Implicit Types (awaited : list (option (outcome (option string)))).

Lemma start_step_active ep self :
  active (start_step ep self) = active self || is_endpoint (Some (Return ep)).
Proof.
  destruct self as [? ? ? ? ? ? ? ? ? a ? ?].
  destruct ep as [e|], a; reflexivity.
Qed.

Lemma start_step_endpoints ep self :
  endpoints (start_step ep self) = endpoints self ++ delivered [Some (Return ep)].
Proof.
  destruct self as [? ? ? ? ? ? ? es ? a ? ?].
  destruct ep as [e|], a; simpl; by rewrite ?app_nil_r.
Qed.

(** The session after [k] iterations, in closed form. *)
Lemma start_states_closed awaited : ∀ self k s,
  (self :: start_states self awaited) !! k = Some s →
  active s = active self || existsb is_endpoint (take k awaited)
  ∧ endpoints s = endpoints self ++ delivered (take k awaited).
Proof.
  induction awaited as [|r rest IH]; intros self [|k] s Hs; simpl in Hs.
  - injection Hs as <-. by rewrite orb_false_r, app_nil_r.
  - done.
  - injection Hs as <-. by rewrite orb_false_r, app_nil_r.
  - destruct r as [[ep|e]|]; [|done..].
    destruct (IH _ _ _ Hs) as [Ha He].
    rewrite Ha, He, start_step_active, start_step_endpoints.
    split.
    + by rewrite <-orb_assoc.
    + rewrite <-app_assoc. f_equal. by destruct ep.
Qed.

Lemma delivered_nil_iff awaited :
  delivered awaited = [] ↔ existsb is_endpoint awaited = false.
Proof.
  induction awaited as [|r rest IH]; [done|].
  destruct r as [[[e|]|e]|]; simpl; try exact IH. split; done.
Qed.

Lemma existsb_is_endpoint awaited :
  existsb is_endpoint awaited = true ↔
  ∃ j e, awaited !! j = Some (Some (Return (Some e))).
Proof.
  rewrite existsb_exists. split.
  - intros [r [Hin Hr]]. apply list_elem_of_In, list_elem_of_lookup in Hin as [j Hj].
    destruct r as [[[e|]|]|]; try done. by exists j, e.
  - intros (j & e & Hj). exists (Some (Return (Some e))). split; [|done].
    apply list_elem_of_In, list_elem_of_lookup. by exists j.
Qed.

Lemma take_le_split {A} (l : list A) (j k : nat) :
  (j ≤ k)%nat → take k l = take j l ++ drop j (take k l).
Proof.
  intros Hjk. rewrite <-(take_drop j (take k l)) at 1.
  by rewrite take_take, Nat.min_l.
Qed.

(** [start] runs the loop on the results of its tasks in the order of
    completion and ends in the last of its states. *)
Lemma start_loop_last awaited : ∀ self out self' out',
  start_loop self awaited out = Some (Return tt, self', out') →
  last (self :: start_states self awaited) = Some self'
  ∧ length (start_states self awaited) = length awaited.
Proof.
  induction awaited as [|r rest IH]; intros self out self' out' H; simpl in H.
  - by injection H as <- <-.
  - destruct r as [[ep|e]|]; [|done..].
    destruct (IH _ _ _ _ H) as [Hl Hn]. simpl. by rewrite Hn.
Qed.

Lemma start_final_state {S : Type} `{!ApiGateway S} sched retries pages force
    (cp : string → world S) self self' out :
  start sched retries pages force cp self = Some (Return tt, self', out) →
  last (self :: start_states self
          (awaited_outcome <$> as_completed sched (create_tasks retries pages force cp self)))
  = Some self'.
Proof.
  unfold start. intros H.
  destruct (start_loop _ _ _) as [[[[[]|e] s1] out1]|] eqn:E; [|done..].
  injection H as <- _. by apply start_loop_last in E as [? _].
Qed.

End ProvisioningRun.

(** ** Tasks and their traces *)

Section Frames.

Context {S : Type} `{!ApiGateway S}.

Lemma prepend_prepend {A} t1 t2 (x : option (outcome A * world S)) :
  prepend t1 (prepend t2 x) = prepend (t1 ++ t2) x.
Proof. destruct x as [[r w]|]; simpl; [|done]. by rewrite app_assoc. Qed.

Variable P : event → bool.

Lemma frames_ret {A} (a : A) : frames (S:=S) P (ret a : task S A).
Proof. intros s t. unfold ret. simpl. by rewrite app_nil_r. Qed.

Lemma frames_raise {A} e : frames (S:=S) P (raise e : task S A).
Proof. intros s t. unfold raise. simpl. by rewrite app_nil_r. Qed.

Lemma frames_none {A} (m : task S A) : (∀ w, m w = None) → frames (S:=S) P m.
Proof. intros H s t. by rewrite !H. Qed.

Lemma frames_emit e : P e = true → frames (S:=S) P (emit e : task S unit).
Proof. intros He s t. unfold emit. simpl. by rewrite He. Qed.

Lemma frames_call {A} c (op : S → outcome A * S) :
  P (ECall c) = true → frames (S:=S) P (call c op).
Proof.
  intros Hc s t. unfold call. simpl. destruct (op s) as [r s']. simpl.
  by rewrite Hc.
Qed.

Lemma frames_bind {A B} (m : task S A) (k : A → task S B) :
  frames (S:=S) P m → (∀ a, frames (S:=S) P (k a)) → frames (S:=S) P (bind m k).
Proof.
  intros Hm Hk s t. unfold bind.
  destruct (Hm s t) as [-> Hev].
  destruct (m (mkWorld s [])) as [[[a|e] [s1 t1]]|]; simpl in *; [|done..].
  destruct (Hk a s1 (t ++ t1)) as [-> _].
  destruct (Hk a s1 t1) as [-> Hev'].
  rewrite prepend_prepend. split; [done|].
  destruct (k a (mkWorld s1 [])) as [[r [s2 t2]]|]; simpl in *; [|done].
  by rewrite forallb_app, Hev, Hev'.
Qed.

Lemma frames_try_except {A} (m : task S A) (h : exn → option (task S A)) :
  frames (S:=S) P m → (∀ e k, h e = Some k → frames (S:=S) P k) → frames (S:=S) P (try_except m h).
Proof.
  intros Hm Hh s t. unfold try_except.
  destruct (Hm s t) as [-> Hev].
  destruct (m (mkWorld s [])) as [[[a|e] [s1 t1]]|]; simpl in *; [done| |done].
  destruct (h e) as [k|] eqn:Hk; [|done].
  destruct (Hh e k Hk s1 (t ++ t1)) as [-> _].
  destruct (Hh e k Hk s1 t1) as [-> Hev'].
  rewrite prepend_prepend. split; [done|].
  destruct (k (mkWorld s1 [])) as [[r [s2 t2]]|]; simpl in *; [|done].
  by rewrite forallb_app, Hev, Hev'.
Qed.

(** What [frames] gives for a run from an arbitrary world. *)
Lemma frames_run {A} (m : task S A) w r w' :
  frames (S:=S) P m → m w = Some (r, w') →
  ∃ evs, trace w' = trace w ++ evs ∧ forallb P evs = true
         ∧ ∀ t, m (mkWorld (client w) t) = Some (r, mkWorld (client w') (t ++ evs)).
Proof.
  intros Hm Hrun. destruct w as [s t0].
  destruct (Hm s t0) as [E Hev]. rewrite Hrun in E.
  destruct (m (mkWorld s [])) as [[r1 [s1 t1]]|] eqn:E1; [|done].
  simpl in *. injection E as -> ->. exists t1. split; [done|]. split; [done|].
  intros t. destruct (Hm s t) as [-> _]. by rewrite E1.
Qed.

Hypothesis P_print : ∀ line, P (EPrint line) = true.
Hypothesis P_listing : ∀ limit position, P (ECall (GetRestApis limit position)) = true.

Variable self : RotatingClientSession.

Lemma frames_print message : frames (S:=S) P (_print_if_verbose self message).
Proof.
  unfold _print_if_verbose. destruct (verbose self);
    [by apply frames_emit|apply frames_ret].
Qed.

Lemma frames_get_apis_from pages region : ∀ position apis,
  frames (S:=S) P (_get_apis_from self pages region position apis).
Proof.
  induction pages as [|pages IH]; intros position apis; simpl.
  - by apply frames_none.
  - apply frames_bind.
    + apply frames_try_except.
      * apply frames_bind; [by apply frames_call|]. intros g. apply frames_ret.
      * intros e k Hk. destruct e; try done; injection Hk as <-;
          (apply frames_bind; [apply frames_print|intros _; apply frames_ret]).
    + intros [result|gateways]; [apply frames_ret|].
      destruct (page_position gateways); [apply IH|apply frames_ret].
Qed.

Lemma frames_get_apis pages region : frames (S:=S) P (_get_apis self pages region).
Proof. apply frames_get_apis_from. Qed.

End Frames.

(** ** Provisioning one region *)

Section Provisioning.

Context {CP : Type} `{!ApiGateway CP}.
Variable self : RotatingClientSession.



(** An error answer to [create_rest_api] other than a rate limit is
    absorbed: the task returns [None]. *)
Lemma create_api_absorbs_creation_error retries pages region force
    (w w0 : world CP) e s1 :
  before_create self pages region force w w0 →
  create_rest_api (name self) (client w0) = (Raise e, s1) →
  e = EndpointConnectionError
  ∨ (∃ code, e = ClientError code ∧ code ≠ TooManyRequestsException) →
  ∃ w', _create_api self (S retries) pages region force w = Some (Return None, w').
Proof.
  intros Hbefore Hcreate He. simpl.
  unfold bind, try_except, list_or_create, bind, call.
  assert (∃ k, create_api_except self (_create_api self retries pages region force) region e
               = Some k ∧ ∀ w1, ∃ w', k w1 = Some (Return (inl None), w')) as (k & Hk & Hrun).
  { destruct He as [->|(code & -> & Hcode)]; simpl.
    - eexists. split; [reflexivity|]. intros w1.
      unfold bind, _print_if_verbose. destruct (verbose self); by eexists.
    - apply String.eqb_neq in Hcode. rewrite Hcode.
      eexists. split; [reflexivity|]. intros w1.
      unfold bind, _print_if_verbose. destruct (verbose self); by eexists. }
  unfold before_create in Hbefore. destruct force; simpl.
  - subst w0. rewrite Hcreate. simpl. rewrite Hk.
    destruct (Hrun (mkWorld s1 (trace w ++ [ECall (CreateRestApi (name self))])))
      as [w' ->]. by eexists.
  - destruct Hbefore as (apis & -> & ->). simpl. rewrite Hcreate. simpl. rewrite Hk.
    destruct (Hrun (mkWorld s1 (trace w0 ++ [ECall (CreateRestApi (name self))])))
      as [w' ->]. by eexists.
Qed.






End Provisioning.

Section SingleAttempt.

Context {CP : Type} `{!ApiGateway CP}.
Variable self : RotatingClientSession.
Variable P : event → bool.
Hypothesis P_print : ∀ line, P (EPrint line) = true.
Hypothesis P_call : ∀ c, P (ECall c) = true.





End SingleAttempt.






Section Retries.

Context {CP : Type} `{!ApiGateway CP}.
Variable self : RotatingClientSession.

Lemma create_api_unfold retries pages region force :
  _create_api (S:=CP) self (S retries) pages region force
  = (r <- try_except
            (list_or_create self pages region force)
            (create_api_except self (_create_api self retries pages region force) region) ;;
     match r with
     | inl result => ret result
     | inr api_id => set_up_api self api_id region
     end)%task.
Proof. reflexivity. Qed.



End Retries.




(** C1: an error answer to a request made after the API has been created
    (here to [get_resources]) is raised by [_create_api] instead of being
    turned into [None], and [start] raises it in turn although the other
    regions are in order. *)
Theorem create_api_raises_after_creation :
  let failing := Mock.region_world [] [None; Some (ClientError "BadRequestException")] in
  let cp := λ region, if String.eqb region "us-east-1" then failing
                      else Mock.region_world [] [] in
  (∃ w, _create_api Mock.example_session 1 1 "us-east-1" true failing
        = Some (Raise (ClientError "BadRequestException"), w))
  ∧ (∃ self out, start (seq 0 20) 1 1 true cp Mock.example_session
                 = Some (Raise (ClientError "BadRequestException"), self, out)
                 ∧ endpoints self = []).
Proof. split; [eexists; reflexivity|]. do 2 eexists. split; reflexivity. Qed.

(** ** Teardown *)

(** C2, as the claim has it, fails: [close] returns with the endpoint set
    as it found it. *)
Lemma close_keeps_endpoints :
  ∃ self out,
    close (seq 0 20) 1 1 (λ _, Mock.region_world [] [])
      (set_active true (set_endpoints ["e1"] Mock.example_session))
    = Some (Return tt, self, out)
    ∧ endpoints self = ["e1"].
Proof. do 2 eexists. split; reflexivity. Qed.

(** C2 (amended): when [close] returns, whatever the deletions in the
    regions did, the session is inactive and its endpoint set is the one
    it had before. *)
Theorem close_deactivates {CP : Type} `{!ApiGateway CP} (sched : list nat)
    (retries pages : nat) (cp : string → world CP)
    (self self' : RotatingClientSession) (out : list string) :
  close sched retries pages cp self = Some (Return tt, self', out) →
  active self' = false ∧ endpoints self' = endpoints self.
Proof.
  unfold close. intros H.
  destruct (_clear_apis sched retries pages cp self) as [[[[]|e] out1]|]; [|done..].
  by injection H as <- _.
Qed.

Lemma close_deactivates_witness :
  let self := set_active true (set_endpoints ["e1"] Mock.example_session) in
  let existing := {| api_id := "abc"; api_name := Some "IP Rotator for https://example.com" |} in
  active (set_active false (set_closed true self)) = false
  ∧ endpoints (set_active false (set_closed true self)) = endpoints self.
Proof.
  intros self existing.
  apply (close_deactivates (seq 0 20) 2 1
           (λ _, Mock.region_world [existing] [None; Some (ClientError "BadRequestException")])
           self _ []).
  reflexivity.
Defined.


(** ** Listing the APIs of a region *)

Section Listing.

Context {CP : Type} `{!ApiGateway CP}.
Variable self : RotatingClientSession.

(** One iteration of the loop of [_get_apis] whose request is answered
    with a page. *)
Lemma get_apis_from_page pages region position apis (s s1 : CP) t page :
  get_rest_apis 500 position s = (Return page, s1) →
  _get_apis_from self (S pages) region position apis (mkWorld s t)
  = match page_position page with
    | None => Some (Return (apis ++ page_items page),
                    mkWorld s1 (t ++ [ECall (GetRestApis 500 position)]))
    | Some token =>
        _get_apis_from self pages region (Some token) (apis ++ page_items page)
          (mkWorld s1 (t ++ [ECall (GetRestApis 500 position)]))
    end.
Proof.
  intros Hpage. simpl. unfold bind, try_except, call. simpl. rewrite Hpage. simpl.
  by destruct (page_position page).
Qed.

Lemma get_apis_from_served region position (s : CP) ps position' s' :
  served position s ps position' s' →
  ∀ pages apis t,
    _get_apis_from self (length ps + pages) region position apis (mkWorld s t)
    = _get_apis_from self pages region position' (apis ++ concat (page_items <$> ps))
        (mkWorld s' (t ++ listing_calls position ps)).
Proof.
  induction 1 as [position s|position s page token s1 ps position' s' Hpage Htoken _ IH];
    intros pages apis t.
  - simpl. by rewrite !app_nil_r.
  - simpl length. simpl Nat.add.
    rewrite (get_apis_from_page _ _ _ _ _ _ _ _ Hpage), Htoken, IH.
    simpl. by rewrite Htoken, <-!app_assoc.
Qed.

Lemma get_apis_from_starved region position (s : CP) ps position' s' :
  served position s ps position' s' →
  ∀ pages apis t, pages ≤ length ps →
    _get_apis_from self pages region position apis (mkWorld s t) = None.
Proof.
  induction 1 as [position s|position s page token s1 ps position' s' Hpage Htoken _ IH];
    intros [|pages] apis t Hle; try done.
  - simpl in Hle. lia.
  - rewrite (get_apis_from_page _ _ _ _ _ _ _ _ Hpage), Htoken.
    apply IH. simpl in Hle. lia.
Qed.

Lemma listing_calls_last position (s : CP) ps position' s' last :
  served position s ps position' s' →
  listing_calls position (ps ++ [last])
  = listing_calls position ps ++ [ECall (GetRestApis 500 position')].
Proof.
  induction 1 as [position s|position s page token s1 ps position' s' Hpage Htoken _ IH];
    [done|].
  simpl. by rewrite Htoken, IH.
Qed.

Lemma get_apis_from_no_client_error pages region : ∀ position apis (w : world CP) e w',
  _get_apis_from self pages region position apis w = Some (Raise e, w') →
  e ≠ EndpointConnectionError ∧ ∀ code, e ≠ ClientError code.
Proof.
  induction pages as [|pages IH]; intros position apis w e w' H; [done|].
  simpl in H. unfold bind, try_except, call in H. simpl in H.
  destruct (get_rest_apis 500 position (client w)) as [[page|e0] s1]; simpl in H.
  - destruct (page_position page) as [token|]; [by eapply IH|done].
  - destruct e0; simpl in H; try by injection H as <- _.
    + unfold bind, _print_if_verbose in H. by destruct (verbose self).
    + unfold bind, _print_if_verbose in H. by destruct (verbose self).
Qed.

End Listing.

(** X1: [_get_apis] follows the continuation tokens: when the control
    plane hands out the pages [ps] and then a last page without a token,
    the result is the items of all pages in order, the requests sent are
    one per page, each with the token of the page before, and the loop
    needs one iteration per page. *)
Theorem get_apis_follows_tokens {CP : Type} `{!ApiGateway CP}
    (self : RotatingClientSession) (region : string) (w : world CP)
    (ps : list apis_page) (position : option string) (s1 s' : CP) (last : apis_page) :
  served None (client w) ps position s1 →
  get_rest_apis 500 position s1 = (Return last, s') →
  page_position last = None →
  (∀ pages, length ps < pages →
     _get_apis self pages region w
     = Some (Return (concat (page_items <$> ps ++ [last])),
             mkWorld s' (trace w ++ listing_calls None (ps ++ [last]))))
  ∧ (∀ pages, pages ≤ length ps → _get_apis self pages region w = None).
Proof.
  intros Hserved Hlast Hend. destruct w as [s t]. simpl in *. split.
  - intros pages Hlt. unfold _get_apis.
    replace pages with (length ps + S (pages - S (length ps))) by lia.
    rewrite (get_apis_from_served self region _ _ _ _ _ Hserved).
    rewrite (get_apis_from_page self _ _ _ _ _ _ _ _ Hlast), Hend.
    rewrite (listing_calls_last _ _ _ _ _ last Hserved).
    rewrite fmap_app, concat_app. simpl. by rewrite !app_nil_r, app_assoc.
  - intros pages Hle. by apply (get_apis_from_starved self region _ _ _ _ _ Hserved).
Qed.

Lemma get_apis_follows_tokens_witness :
  let w := mkWorld Pager.two_pages [] in
  _get_apis Mock.example_session 2 "us-east-1" w
  = Some (Return [Pager.other; Pager.own],
          mkWorld Pager.two_pages
            [ECall (GetRestApis 500 None); ECall (GetRestApis 500 (Some "t1"))])
  ∧ _get_apis Mock.example_session 1 "us-east-1" w = None.
Proof.
  intros w.
  assert (served None (client w) [{| page_items := [Pager.other]; page_position := Some "t1" |}]
            (Some "t1") Pager.two_pages) as Hserved.
  { eapply served_cons; [reflexivity|reflexivity|apply served_nil]. }
  destruct (get_apis_follows_tokens Mock.example_session "us-east-1" w _ _ _ _
              {| page_items := [Pager.own]; page_position := None |}
              Hserved eq_refl eq_refl) as [Hall Hstarved].
  split; [apply (Hall 2); simpl; lia|apply (Hstarved 1); simpl; lia].
Defined.

(** X2: an error answer to a listing request, after any number of pages,
    makes [_get_apis] return the empty list: the pages already fetched are
    dropped and nothing is raised. *)
Theorem get_apis_error_drops_pages {CP : Type} `{!ApiGateway CP}
    (self : RotatingClientSession) (region : string) (w : world CP)
    (ps : list apis_page) (position : option string) (s1 s' : CP) (e : exn) :
  served None (client w) ps position s1 →
  get_rest_apis 500 position s1 = (Raise e, s') →
  e = EndpointConnectionError ∨ (∃ code, e = ClientError code) →
  ∀ pages, length ps < pages →
    ∃ w', _get_apis self pages region w = Some (Return [], w') ∧ client w' = s'.
Proof.
  intros Hserved Hfail He pages Hlt. destruct w as [s t]. simpl in *. unfold _get_apis.
  replace pages with (length ps + S (pages - S (length ps))) by lia.
  rewrite (get_apis_from_served self region _ _ _ _ _ Hserved).
  simpl. unfold bind, try_except, call. simpl. rewrite Hfail. simpl.
  destruct He as [->|[code ->]]; simpl;
    unfold bind, _print_if_verbose; destruct (verbose self); simpl; by eexists.
Qed.

Lemma get_apis_error_drops_pages_witness :
  let first := {| page_items := [Pager.own]; page_position := Some "t1" |} in
  let w := mkWorld (Pager.mk [(None, first)]) [] in
  ∃ w', _get_apis Mock.example_session 2 "us-east-1" w = Some (Return [], w')
        ∧ client w' = Pager.mk [(None, first)].
Proof.
  intros first w.
  apply (get_apis_error_drops_pages Mock.example_session "us-east-1" w [first]
           (Some "t1") (client w) (client w) (ClientError "BadRequestException")).
  - eapply served_cons; [reflexivity|reflexivity|apply served_nil].
  - reflexivity.
  - right. by eexists.
  - simpl. lia.
Defined.

(** X3: whatever the control plane does, [_get_apis] raises neither a
    [ClientError] nor an [EndpointConnectionError]. *)
Theorem get_apis_absorbs_client_errors {CP : Type} `{!ApiGateway CP}
    (self : RotatingClientSession) (pages : nat) (region : string)
    (w w' : world CP) (e : exn) :
  _get_apis self pages region w = Some (Raise e, w') →
  e ≠ EndpointConnectionError ∧ ∀ code, e ≠ ClientError code.
Proof. apply get_apis_from_no_client_error. Qed.

Lemma get_apis_absorbs_client_errors_witness :
  BotoCoreError "NoCredentialsError" ≠ EndpointConnectionError
  ∧ ∀ code, BotoCoreError "NoCredentialsError" ≠ ClientError code.
Proof.
  apply (get_apis_absorbs_client_errors Mock.example_session 1 "us-east-1"
           (Mock.region_world [] [Some (BotoCoreError "NoCredentialsError")])
           (mkWorld (Mock.mk [] 0 []) [ECall (GetRestApis 500 None)])).
  reflexivity.
Defined.

(** ** After the creation, and forced creation *)

Section Creation.

Context {CP : Type} `{!ApiGateway CP}.
Variable self : RotatingClientSession.

Lemma no_listing_print : ∀ line, no_listing (EPrint line) = true.
Proof. done. Qed.

Lemma frames_forced_list_or_create pages region :
  frames no_listing (list_or_create (S:=CP) self pages region true).
Proof.
  unfold list_or_create. simpl. apply frames_bind; [apply frames_ret|].
  intros [address|]; [apply frames_ret|].
  apply frames_bind; [by apply frames_call|]. intros id. apply frames_ret.
Qed.

Lemma frames_set_up_no_listing api_id region :
  frames no_listing (set_up_api (S:=CP) self api_id region).
Proof.
  unfold set_up_api.
  apply frames_bind; [by apply frames_call|]. intros resources.
  apply frames_bind.
  { destruct (Py.index resources 0); [apply frames_ret|apply frames_raise]. }
  intros api_resource_id.
  apply frames_bind; [by apply frames_call|]. intros resource_id.
  apply frames_bind.
  { unfold _configure_api.
    repeat (apply frames_bind; [by apply frames_call|intros _]).
    by apply frames_call. }
  intros _.
  apply frames_bind; [by apply frames_print|]. intros _. apply frames_ret.
Qed.

Lemma frames_forced_create_api pages region retries :
  frames no_listing (_create_api (S:=CP) self retries pages region true).
Proof.
  induction retries as [|retries IH]; [by apply frames_none|].
  rewrite create_api_unfold. apply frames_bind.
  - apply frames_try_except; [apply frames_forced_list_or_create|].
    intros e k Hk. destruct e; try done; injection Hk as <-.
    + destruct (String.eqb _ _).
      * apply frames_bind.
        { unfold back_off. apply frames_bind; [by apply frames_print|].
          intros _. by apply frames_emit. }
        intros _. apply frames_bind; [apply IH|]. intros r. apply frames_ret.
      * apply frames_bind; [by apply frames_print|]. intros _. apply frames_ret.
    + apply frames_bind; [by apply frames_print|]. intros _. apply frames_ret.
  - intros [r|id]; [apply frames_ret|apply frames_set_up_no_listing].
Qed.

Lemma app_nil_r_str (s : string) : s +:+ "" = s.
Proof. induction s as [|c s IH]; [done|]. by rewrite app_cons, IH. Qed.

End Creation.

(** X4: once [create_rest_api] has returned the id of the new API,
    [_create_api] does what the set-up of that API does and nothing else:
    no [except] clause applies any more, so whatever a later request
    raises, a rate limit included, is raised at once without a retry. *)
Theorem create_api_then_set_up {CP : Type} `{!ApiGateway CP}
    (self : RotatingClientSession) (retries pages : nat) (region : string)
    (force : bool) (w w0 : world CP) (id : string) (s1 : CP) :
  before_create self pages region force w w0 →
  create_rest_api (name self) (client w0) = (Return id, s1) →
  _create_api self (S retries) pages region force w
  = set_up_api self id region
      (mkWorld s1 (trace w0 ++ [ECall (CreateRestApi (name self))])).
Proof.
  intros Hbefore Hcreate. simpl.
  unfold bind at 1. unfold try_except, list_or_create, bind, call.
  unfold before_create in Hbefore. destruct force; simpl.
  - subst w0. by rewrite Hcreate.
  - destruct Hbefore as (apis & -> & ->). simpl. by rewrite Hcreate.
Qed.

Lemma create_api_then_set_up_witness :
  ∃ w', _create_api Mock.example_session 5 1 "us-east-1" true
          (Mock.region_world [] [None; Mock.throttled])
        = Some (Raise (ClientError TooManyRequestsException), w')
        ∧ List.filter is_sleep (trace w') = [].
Proof.
  pose (w := Mock.region_world [] [None; Mock.throttled]).
  pose (s1 := Mock.mk [{| api_id := "api0";
                          api_name := Some "IP Rotator for https://example.com" |}]
                1 [Mock.throttled]).
  assert (create_rest_api (name Mock.example_session) (client w) = (Return "api0", s1))
    as Hcreate by (vm_compute; reflexivity).
  pose proof (create_api_then_set_up Mock.example_session 4 1 "us-east-1" true
                w w "api0" s1 eq_refl Hcreate) as Hrun.
  unfold w in Hrun at 1. eexists. rewrite Hrun.
  split; vm_compute; reflexivity.
Defined.

(** X5: with [force] set, [_create_api] never sends a listing request,
    however often it retries. *)
Theorem forced_create_api_never_lists {CP : Type} `{!ApiGateway CP}
    (self : RotatingClientSession) (retries pages : nat) (region : string)
    (w w' : world CP) (r : outcome (option string)) :
  _create_api self retries pages region true w = Some (r, w') →
  ∃ evs, trace w' = trace w ++ evs ∧ forallb no_listing evs = true.
Proof.
  intros Hrun.
  eapply (frames_run no_listing) in Hrun as (evs & Ht & Hev & _);
    [|apply frames_forced_create_api].
  by exists evs.
Qed.

Lemma forced_create_api_never_lists_witness :
  let w := Mock.region_world [Pager.own] [Mock.throttled] in
  ∃ evs, [ECall (CreateRestApi "IP Rotator for https://example.com"); ESleep 3;
          ECall (CreateRestApi "IP Rotator for https://example.com");
          ECall (GetResources "api0"); ECall (CreateResource "api0" "root" "{proxy+}");
          ECall (PutMethod "api0" "root");
          ECall (PutIntegration "api0" "root" "https://example.com");
          ECall (PutMethod "api0" "res1");
          ECall (PutIntegration "api0" "res1" "https://example.com/{proxy}");
          ECall (CreateDeployment "api0" "proxy-stage")] = trace w ++ evs
         ∧ forallb no_listing evs = true.
Proof.
  intros w.
  eapply (forced_create_api_never_lists Mock.example_session 2 1 "us-east-1" w
            (mkWorld _ _) (Return (Some "api0.execute-api.us-east-1.amazonaws.com"))).
  vm_compute. reflexivity.
Defined.

(** X6: an API whose name is the name of this session followed by
    something more is taken for an API of this session by [_create_api]
    (the test is [startswith]), but the loop of [_clear_region_apis]
    without [force] passes over it (the test is [==]): it sends no request
    for it and leaves the trace as it is. *)
Theorem prefixed_api_found_but_not_deleted {CP : Type} `{!ApiGateway CP}
    (self : RotatingClientSession) (api : rest_api) (suffix : string)
    (again : task CP unit) (w : world CP) :
  api_name api = Some (name self +:+ suffix) →
  suffix ≠ "" →
  is_own_api self api = true
  ∧ _clear_region_loop self again false [api] w = Some (Return tt, w).
Proof.
  intros Hname Hsuffix. split.
  - unfold is_own_api. rewrite Hname. simpl. apply startswith_app.
  - simpl. unfold bind. rewrite Hname. simpl.
    destruct (String.eqb (name self +:+ suffix) (name self)) eqn:E; [|done].
    apply String.eqb_eq in E. rewrite <-(app_nil_r_str (name self)) in E at 2.
    by apply (inj (String.append (name self))) in E.
Qed.

Lemma prefixed_api_found_but_not_deleted_witness :
  let api := {| api_id := "evil"; api_name := Some "IP Rotator for https://example.com.evil" |} in
  let w := Mock.region_world [api] [] in
  is_own_api Mock.example_session api = true
  ∧ _clear_region_loop Mock.example_session diverge false [api] w = Some (Return tt, w).
Proof.
  intros api w.
  apply (prefixed_api_found_but_not_deleted Mock.example_session api ".evil" diverge w);
    [reflexivity|discriminate].
Defined.

(** ** Teardown of one region *)

Section RegionTeardown.

Context {CP : Type} `{!ApiGateway CP}.
Variable self : RotatingClientSession.

Lemma deleted_ids_app evs1 evs2 :
  deleted_ids (evs1 ++ evs2) = deleted_ids evs1 ++ deleted_ids evs2.
Proof. apply omap_app. Qed.

Lemma deleted_ids_quiet evs : forallb quiet_listing evs = true → deleted_ids evs = [].
Proof.
  induction evs as [|e evs IH]; [done|]. simpl. intros H.
  apply andb_true_iff in H as [He Hevs].
  destruct e as [[]| |]; try done; by apply IH.
Qed.

(** The loop passes over the APIs that are not selected. *)
Lemma clear_loop_passes_over again force skipped rest (w : world CP) :
  forallb (passed_over self force) skipped = true →
  _clear_region_loop self again force (skipped ++ rest) w
  = _clear_region_loop self again force rest w.
Proof.
  induction skipped as [|api skipped IH]; [done|]. simpl. intros H.
  apply andb_true_iff in H as [Hapi Hskipped]. unfold passed_over in Hapi.
  destruct force; [done|]. destruct (api_name api) as [n|]; [|done]. simpl in Hapi.
  unfold bind. simpl. apply negb_true_iff in Hapi. rewrite Hapi. by apply IH.
Qed.

(** A loop that returns without having called [again] has sent one
    deletion request for each selected API, in the order of the listing,
    and has not slept. *)
Lemma clear_loop_deletes again force : ∀ apis (w w' : world CP),
  (∀ w1, again w1 = None) →
  _clear_region_loop self again force apis w = Some (Return tt, w') →
  ∃ evs, trace w' = trace w ++ evs
         ∧ deleted_ids evs = api_id <$> List.filter (selected_for_deletion self force) apis
         ∧ List.filter is_sleep evs = [].
Proof.
  intros apis w w' Hagain. revert w.
  induction apis as [|api apis IH]; intros w H.
  - injection H as <-. exists []. by rewrite app_nil_r.
  - simpl in H. unfold bind at 1 in H.
    assert (∃ b, (if force then ret true
                  else match api_name api with
                       | Some n => ret (String.eqb n (name self))
                       | None => raise (KeyError "name")
                       end) w = Some (Return b, w)
                 ∧ selected_for_deletion self force api = b) as (b & Hb & Hsel).
    { unfold selected_for_deletion. destruct force; [by exists true|].
      destruct (api_name api) as [n|]; [by eexists|done]. }
    rewrite Hb in H. simpl. rewrite Hsel. destruct b.
    + unfold bind at 1, try_except, bind, call in H.
      destruct (delete_rest_api (api_id api) (client w)) as [[[]|e] s1]; simpl in H.
      * unfold bind, _print_if_verbose in H. destruct (verbose self); simpl in H;
          apply IH in H as (evs & Ht & Hd & Hs); simpl in Ht;
          eexists; (split; [rewrite Ht, <-!app_assoc; reflexivity|]);
          rewrite ?deleted_ids_app, ?List.filter_app, Hd, Hs; by simpl.
      * destruct e; simpl in H; try done.
        destruct (String.eqb code TooManyRequestsException); simpl in H.
        { unfold bind, _print_if_verbose, sleep, emit in H.
          destruct (verbose self); simpl in H; by rewrite Hagain in H. }
        unfold bind, _print_if_verbose in H. destruct (verbose self); simpl in H;
          apply IH in H as (evs & Ht & Hd & Hs); simpl in Ht;
          eexists; (split; [rewrite Ht, <-!app_assoc; reflexivity|]);
          rewrite ?deleted_ids_app, ?List.filter_app, Hd, Hs; by simpl.
    + by apply IH.
Qed.

End RegionTeardown.

(** A deletion answered with success or with a [ClientError] that is not
    a rate limit: the loop prints and goes on with the next API. *)
Lemma clear_loop_goes_on {CP : Type} `{!ApiGateway CP} (self : RotatingClientSession)
    (again : task CP unit) (force : bool) (api : rest_api) (rest : list rest_api)
    (w : world CP) (answer : outcome unit) (s1 : CP) :
  selected_for_deletion self force api = true →
  delete_rest_api (api_id api) (client w) = (answer, s1) →
  answer = Return tt
  ∨ (∃ code, answer = Raise (ClientError code) ∧ code ≠ TooManyRequestsException) →
  _clear_region_loop self again force (api :: rest) w
  = (_print_if_verbose self ("Deleted rest API with id " +:+ dq +:+ api_id api +:+ dq) ;;
     _clear_region_loop self again force rest)%task
      (mkWorld s1 (trace w ++ [ECall (DeleteRestApi (api_id api))])).
Proof.
  intros Hsel Hdelete Hanswer. simpl. unfold bind at 1.
  assert ((if force then ret true
           else match api_name api with
                | Some n => ret (String.eqb n (name self))
                | None => raise (KeyError "name")
                end) w = Some (Return true, w)) as ->.
  { unfold selected_for_deletion in Hsel. destruct force; [done|].
    destruct (api_name api) as [n|]; [|done]. simpl in Hsel. by rewrite Hsel. }
  unfold bind at 1, try_except. unfold bind at 1, call. rewrite Hdelete.
  destruct Hanswer as [->|(code & -> & Hcode)]; simpl; [done|].
  apply String.eqb_neq in Hcode. by rewrite Hcode.
Qed.

(** X7: a teardown task that returns on its first pass (it was never
    rate-limited) has sent exactly one deletion request for each listed
    API that is selected, that is every API under [force] and those named
    exactly [self.name] otherwise, in the order of the listing, and has
    not slept; and a deletion that is answered with a [ClientError] other
    than a rate limit does not stop the loop: it goes on with the next API
    as it does after a successful deletion. *)
Theorem clear_region_deletes_selected {CP : Type} `{!ApiGateway CP}
    (self : RotatingClientSession) (pages : nat) (region : string) (force : bool)
    (w w0 w' : world CP) (apis : list rest_api) :
  _get_apis self pages region w = Some (Return apis, w0) →
  _clear_region_apis self 1 pages region force w = Some (Return tt, w') →
  (∃ evs, trace w' = trace w ++ evs
          ∧ deleted_ids evs = api_id <$> List.filter (selected_for_deletion self force) apis
          ∧ List.filter is_sleep evs = [])
  ∧ (∀ (again : task CP unit) api rest (w1 : world CP) answer s1,
       selected_for_deletion self force api = true →
       delete_rest_api (api_id api) (client w1) = (answer, s1) →
       answer = Return tt
       ∨ (∃ code, answer = Raise (ClientError code) ∧ code ≠ TooManyRequestsException) →
       _clear_region_loop self again force (api :: rest) w1
       = (_print_if_verbose self ("Deleted rest API with id " +:+ dq +:+ api_id api +:+ dq) ;;
          _clear_region_loop self again force rest)%task
           (mkWorld s1 (trace w1 ++ [ECall (DeleteRestApi (api_id api))]))).
Proof.
  intros Hlist Hrun. split.
  2:{ intros again api rest w1 answer s1 Hsel Hdelete Hanswer.
      by apply (clear_loop_goes_on self again force api rest w1 answer s1). }
  simpl in Hrun. unfold bind at 1 in Hrun. rewrite Hlist in Hrun.
  apply clear_loop_deletes in Hrun as (evs & Ht & Hd & Hs); [|done].
  eapply (frames_run quiet_listing) in Hlist as (evs0 & Ht0 & Hev0 & _);
    [|by apply frames_get_apis].
  exists (evs0 ++ evs). split; [by rewrite Ht, Ht0, app_assoc|].
  rewrite deleted_ids_app, List.filter_app, Hd, Hs, (deleted_ids_quiet evs0 Hev0).
  split; [done|]. rewrite app_nil_r.
  clear -Hev0. induction evs0 as [|e evs0 IH]; [done|]. simpl in *.
  apply andb_true_iff in Hev0 as [He Hevs]. destruct e as [[]| |]; try done; by apply IH.
Qed.

Lemma clear_region_deletes_selected_witness :
  let stale := {| api_id := "old"; api_name := Some "IP Rotator for https://example.com" |} in
  let w := Mock.region_world [Pager.other; stale; Pager.own]
             [None; Some (ClientError "BadRequestException")] in
  ∃ w',
    _clear_region_apis Mock.example_session 1 1 "us-east-1" false w = Some (Return tt, w')
    ∧ Mock.apis (client w') = [Pager.other; stale]
    ∧ ∃ evs, trace w' = trace w ++ evs
             ∧ deleted_ids evs = ["old"; "abc"]
             ∧ List.filter is_sleep evs = [].
Proof.
  intros stale w.
  assert (∃ w', _clear_region_apis Mock.example_session 1 1 "us-east-1" false w
                = Some (Return tt, w')
                ∧ Mock.apis (client w') = [Pager.other; stale]) as (w' & Hrun & Hleft)
    by (eexists; split; vm_compute; reflexivity).
  exists w'. split; [exact Hrun|]. split; [exact Hleft|].
  apply (clear_region_deletes_selected Mock.example_session 1 "us-east-1" false w
           (mkWorld (Mock.mk [Pager.other; stale; Pager.own] 0
                       [Some (ClientError "BadRequestException")])
              [ECall (GetRestApis 500 None)])
           w' [Pager.other; stale; Pager.own]); [reflexivity|exact Hrun].
Defined.

(** X8: without [force], a listed API that has no name makes
    [_clear_region_apis] raise [KeyError] when the loop reaches it; if only
    APIs with other names come before it, no deletion request has been
    sent. *)
Theorem clear_region_nameless_api {CP : Type} `{!ApiGateway CP}
    (self : RotatingClientSession) (retries pages : nat) (region : string)
    (w w0 : world CP) (skipped rest : list rest_api) (nameless : rest_api) :
  _get_apis self pages region w = Some (Return (skipped ++ nameless :: rest), w0) →
  forallb (passed_over self false) skipped = true →
  api_name nameless = None →
  _clear_region_apis self (S retries) pages region false w
  = Some (Raise (KeyError "name"), w0).
Proof.
  intros Hlist Hskipped Hname. simpl. unfold bind at 1. rewrite Hlist.
  rewrite clear_loop_passes_over by done.
  simpl. unfold bind. by rewrite Hname.
Qed.

Lemma clear_region_nameless_api_witness :
  let nameless := {| api_id := "n1"; api_name := None |} in
  _clear_region_apis Mock.example_session 1 1 "us-east-1" false
    (Mock.region_world [Pager.other; nameless; Pager.own] [])
  = Some (Raise (KeyError "name"),
          mkWorld (Mock.mk [Pager.other; nameless; Pager.own] 0 [])
            [ECall (GetRestApis 500 None)]).
Proof.
  intros nameless.
  apply (clear_region_nameless_api Mock.example_session 0 1 "us-east-1"
           (Mock.region_world [Pager.other; nameless; Pager.own] []) _
           [Pager.other] [Pager.own] nameless); reflexivity.
Defined.

(** X9: when the deletion of the first selected API is answered with
    [TooManyRequestsException], the task sleeps 3 seconds and starts the
    region over with a new listing: it goes on as [_clear_region_apis]
    does with one unit of [retries] less from the world it has reached. *)
Theorem clear_region_restarts_when_rate_limited {CP : Type} `{!ApiGateway CP}
    (self : RotatingClientSession) (retries pages : nat) (region : string)
    (force : bool) (w w0 : world CP) (skipped rest : list rest_api)
    (api : rest_api) (s1 : CP) :
  _get_apis self pages region w = Some (Return (skipped ++ api :: rest), w0) →
  forallb (passed_over self force) skipped = true →
  selected_for_deletion self force api = true →
  delete_rest_api (api_id api) (client w0)
    = (Raise (ClientError TooManyRequestsException), s1) →
  ∃ w2, client w2 = s1
        ∧ (∃ evs, trace w2 = trace w0 ++ evs
                  ∧ deleted_ids evs = [api_id api]
                  ∧ List.filter is_sleep evs = [ESleep 3])
        ∧ _clear_region_apis self (S retries) pages region force w
          = _clear_region_apis self retries pages region force w2.
Proof.
  intros Hlist Hskipped Hsel Hdelete.
  assert (∃ w2 : world CP,
            (_print_if_verbose self
               "Too many requests when deleting rest API, sleeping for 3 seconds" ;;
             sleep 3)%task (mkWorld s1 (trace w0 ++ [ECall (DeleteRestApi (api_id api))]))
            = Some (Return tt, w2)
            ∧ client w2 = s1
            ∧ ∃ evs, trace w2 = trace w0 ++ evs ∧ deleted_ids evs = [api_id api]
                     ∧ List.filter is_sleep evs = [ESleep 3]) as (w2 & Hoff & Hc & Hev).
  { unfold bind, _print_if_verbose, sleep, emit. destruct (verbose self); simpl;
      eexists; (split; [reflexivity|]); (split; [reflexivity|]); simpl;
      eexists; (split; [by rewrite <-!app_assoc|]); by simpl. }
  exists w2. split; [done|]. split; [done|].
  simpl. unfold bind at 1. rewrite Hlist.
  rewrite clear_loop_passes_over by done. simpl. unfold bind at 1.
  assert ((if force then ret true
           else match api_name api with
                | Some n => ret (String.eqb n (name self))
                | None => raise (KeyError "name")
                end) w0 = Some (Return true, w0)) as ->.
  { unfold selected_for_deletion in Hsel. destruct force; [done|].
    destruct (api_name api) as [n|]; [|done]. simpl in Hsel. by rewrite Hsel. }
  unfold bind at 1, try_except. unfold bind at 1, call. rewrite Hdelete. simpl.
  unfold bind in Hoff |- *.
  destruct (_print_if_verbose self _ _) as [[[[]|e] w1]|]; [|done..].
  rewrite Hoff.
  by destruct (_clear_region_apis self retries pages region force w2) as [[[[]|e] w3]|].
Qed.

Lemma clear_region_restarts_when_rate_limited_witness :
  let w := Mock.region_world [Pager.other; Pager.own] [None; Mock.throttled] in
  ∃ w2, client w2 = Mock.mk [Pager.other; Pager.own] 0 []
        ∧ (∃ evs, trace w2 = [ECall (GetRestApis 500 None)] ++ evs
                  ∧ deleted_ids evs = ["abc"]
                  ∧ List.filter is_sleep evs = [ESleep 3])
        ∧ _clear_region_apis Mock.example_session 2 1 "us-east-1" false w
          = _clear_region_apis Mock.example_session 1 1 "us-east-1" false w2.
Proof.
  intros w.
  apply (clear_region_restarts_when_rate_limited Mock.example_session 1 1 "us-east-1"
           false w
           (mkWorld (Mock.mk [Pager.other; Pager.own] 0 [Mock.throttled])
              [ECall (GetRestApis 500 None)])
           [Pager.other] [] Pager.own); reflexivity.
Defined.

(** ** Runs over all regions *)

Section AllRegions.

Context {CP : Type} `{!ApiGateway CP}.

Lemma gather_returns {A} (awaited : list (option (outcome A))) :
  (∀ r, r ∈ awaited → ∃ a, r = Some (Return a)) →
  ∃ l, gather awaited = Some (Return l).
Proof.
  induction awaited as [|r awaited IH]; intros Hall; [by eexists|].
  destruct (Hall r) as [a ->]; [by left|].
  destruct IH as [l Hl]; [intros r Hr; apply Hall; by right|].
  simpl. rewrite Hl. by eexists.
Qed.

Lemma gather_raises {A} (awaited : list (option (outcome A))) e :
  gather awaited = Some (Raise e) →
  ∃ j, awaited !! j = Some (Some (Raise e))
       ∧ ∀ i, i < j → ∃ a, awaited !! i = Some (Some (Return a)).
Proof.
  induction awaited as [|r awaited IH]; [done|]. simpl.
  destruct r as [[a|e0]|]; [|intros [= ->]|done].
  - intros H. destruct (gather awaited) as [[l|e1]|]; [done| |done].
    injection H as ->. destruct IH as (j & Hj & Hbefore); [done|].
    exists (S j). split; [done|]. intros [|i] Hi; [by eexists|]. apply Hbefore. lia.
  - exists 0. split; [done|]. intros i Hi. lia.
Qed.

Lemma start_loop_returns awaited : ∀ self out self' out',
  start_loop self awaited out = Some (Return tt, self', out') →
  endpoints self' = endpoints self ++ delivered awaited
  ∧ active self' = active self || existsb is_endpoint awaited.
Proof.
  intros self out self' out' H.
  destruct (start_loop_last _ _ _ _ _ H) as [Hlast Hlen].
  assert ((self :: start_states self awaited) !! length awaited = Some self') as Hk.
  { rewrite <-Hlen, <-Hlast. by rewrite last_lookup. }
  apply start_states_closed in Hk as [Ha He].
  by rewrite firstn_all in Ha, He.
Qed.

Lemma start_loop_raises awaited : ∀ self out e self' out',
  start_loop self awaited out = Some (Raise e, self', out') →
  ∃ j, awaited !! j = Some (Some (Raise e))
       ∧ (∀ i, i < j → ∃ r, awaited !! i = Some (Some (Return r)))
       ∧ endpoints self' = endpoints self ++ delivered (take j awaited)
       ∧ active self' = active self || existsb is_endpoint (take j awaited).
Proof.
  induction awaited as [|r awaited IH]; intros self out e self' out' H; [done|].
  simpl in H. destruct r as [[ep|e0]|]; [| |done].
  - apply IH in H as (j & Hj & Hbefore & He & Ha). exists (S j).
    split; [done|]. split.
    { intros [|i] Hi; [by eexists|]. apply Hbefore. lia. }
    rewrite He, Ha, start_step_endpoints, start_step_active. simpl take.
    split; [|by rewrite <-orb_assoc].
    rewrite <-app_assoc. f_equal. by destruct ep.
  - injection H as -> -> _. exists 0. split; [done|].
    split; [intros i Hi; lia|]. simpl. by rewrite app_nil_r, orb_false_r.
Qed.

(** Looking up every position of a list gives the list back. *)
Lemma omap_lookup_all {A} (l pre : list A) :
  omap (λ i, (pre ++ l) !! i) (seq (length pre) (length l)) = l.
Proof.
  revert pre. induction l as [|x l IH]; intros pre; [done|].
  simpl. rewrite list_lookup_middle by done. f_equal.
  specialize (IH (pre ++ [x])). rewrite <-app_assoc, length_app in IH. simpl in IH.
  by rewrite Nat.add_1_r in IH.
Qed.

Lemma as_completed_permutation {A} (sched : list nat) (tasks : list A) :
  sched ≡ₚ seq 0 (length tasks) → as_completed sched tasks ≡ₚ tasks.
Proof.
  intros Hperm. unfold as_completed. rewrite Hperm.
  pose proof (omap_lookup_all tasks []) as Hall. simpl in Hall. by rewrite Hall.
Qed.

Lemma as_completed_fmap {A B} (f : A → B) (sched : list nat) (tasks : list A) :
  f <$> as_completed sched tasks = as_completed sched (f <$> tasks).
Proof.
  unfold as_completed. induction sched as [|i sched IH]; [done|].
  simpl. rewrite list_lookup_fmap. destruct (tasks !! i); simpl; [f_equal|]; exact IH.
Qed.

End AllRegions.

(** X10: [close] either finds that every awaited teardown task returned,
    and then returns with the session inactive and the underlying client
    closed, or raises what [gather] raises, and then leaves the session as
    it was: still active, the underlying client still open. *)
Theorem close_all_or_nothing {CP : Type} `{!ApiGateway CP} (sched : list nat)
    (retries pages : nat) (cp : string → world CP) (self : RotatingClientSession) :
  let awaited := awaited_outcome <$> as_completed sched (clear_tasks retries pages cp self) in
  ((∀ r, r ∈ awaited → r = Some (Return tt)) →
   ∃ out, close sched retries pages cp self
          = Some (Return tt, set_active false (set_closed true self), out))
  ∧ (∀ e self' out, close sched retries pages cp self = Some (Raise e, self', out) →
       self' = self
       ∧ ∃ j, awaited !! j = Some (Some (Raise e))
              ∧ ∀ i, i < j → awaited !! i = Some (Some (Return tt))).
Proof.
  intros awaited. unfold close, _clear_apis. fold awaited. split.
  - intros Hall. destruct (gather_returns awaited) as [l ->]; [|by eexists].
    intros r Hr. exists tt. by apply Hall.
  - intros e self' out H.
    destruct (gather awaited) as [[l|e0]|] eqn:E; [done| |done].
    injection H as -> -> _. split; [done|].
    apply gather_raises in E as (j & Hj & Hbefore). exists j. split; [done|].
    intros i Hi. destruct (Hbefore i Hi) as [[] ->]. done.
Qed.

Lemma close_all_or_nothing_witness :
  let self := set_active true (set_endpoints ["e1"] Mock.example_session) in
  let cp := λ region, if String.eqb region "us-west-1"
                      then Mock.region_world [Pager.own] [None; Some EndpointConnectionError]
                      else Mock.region_world [] [] in
  close (seq 0 20) 1 1 cp self = Some (Raise EndpointConnectionError, self, [])
  ∧ ∃ j, (awaited_outcome <$> as_completed (seq 0 20) (clear_tasks 1 1 cp self)) !! j
         = Some (Some (Raise EndpointConnectionError))
         ∧ ∀ i, i < j →
             (awaited_outcome <$> as_completed (seq 0 20) (clear_tasks 1 1 cp self)) !! i
             = Some (Some (Return tt)).
Proof.
  intros self cp.
  assert (close (seq 0 20) 1 1 cp self = Some (Raise EndpointConnectionError, self, []))
    as Hclose by (vm_compute; reflexivity).
  split; [exact Hclose|].
  apply (close_all_or_nothing (seq 0 20) 1 1 cp self) in Hclose. apply Hclose.
Defined.

(** X11: when [start] returns, the endpoint set is the one it had before
    followed by the endpoints of the tasks in the order of completion, and
    the session is active if it was or if an endpoint came; when every
    task is awaited once, the endpoint set is, up to the order, the same
    for every order of completion. *)
Theorem start_collects_endpoints {CP : Type} `{!ApiGateway CP} (sched : list nat)
    (retries pages : nat) (force : bool) (cp : string → world CP)
    (self self' : RotatingClientSession) (out : list string) :
  start sched retries pages force cp self = Some (Return tt, self', out) →
  let tasks := awaited_outcome <$> create_tasks retries pages force cp self in
  endpoints self' = endpoints self ++ delivered (as_completed sched tasks)
  ∧ active self' = active self || existsb is_endpoint (as_completed sched tasks)
  ∧ (sched ≡ₚ seq 0 (length (regions self)) →
     endpoints self' ≡ₚ endpoints self ++ delivered tasks).
Proof.
  intros Hstart tasks. unfold start in Hstart.
  destruct (start_loop _ _ _) as [[[[[]|e] s1] out1]|] eqn:E; [|done..].
  injection Hstart as <- _.
  apply start_loop_returns in E as [He Ha].
  assert (awaited_outcome <$> as_completed sched (create_tasks retries pages force cp self)
          = as_completed sched tasks) as Hmap.
  { apply as_completed_fmap. }
  rewrite Hmap in He, Ha. split; [done|]. split; [done|].
  intros Hperm. rewrite He. f_equiv. unfold delivered.
  rewrite as_completed_permutation; [done|].
  unfold tasks, create_tasks. by rewrite !length_fmap.
Qed.

Lemma start_collects_endpoints_witness :
  let cp := λ region, if String.eqb region "us-east-2"
                      then Mock.region_world [] [Some EndpointConnectionError]
                      else Mock.region_world [] [] in
  let self := set_endpoints ["old"] Mock.example_session in
  ∃ self' out,
    start [2; 0; 1] 1 1 true cp self = Some (Return tt, self', out)
    ∧ endpoints self' = ["old"; "api0.execute-api.us-west-1.amazonaws.com";
                         "api0.execute-api.us-east-1.amazonaws.com"]
    ∧ active self' = true.
Proof.
  intros cp self.
  assert (∃ self' out, start [2; 0; 1] 1 1 true cp self = Some (Return tt, self', out))
    as (self' & out & Hstart) by (do 2 eexists; vm_compute; reflexivity).
  exists self', out. split; [exact Hstart|].
  destruct (start_collects_endpoints [2; 0; 1] 1 1 true cp self self' out Hstart)
    as (He & Ha & _).
  split; [by rewrite He; vm_compute|by rewrite Ha; vm_compute].
Defined.

(** X12: when [start] raises, it raises the exception of the first task,
    in the order of completion, that raised; the endpoints that came
    before it are in the endpoint set and the results that came after it
    are not looked at. *)
Theorem start_stops_at_first_exception {CP : Type} `{!ApiGateway CP} (sched : list nat)
    (retries pages : nat) (force : bool) (cp : string → world CP)
    (self self' : RotatingClientSession) (out : list string) (e : exn) :
  start sched retries pages force cp self = Some (Raise e, self', out) →
  let awaited := awaited_outcome <$> as_completed sched
                   (create_tasks retries pages force cp self) in
  ∃ j, awaited !! j = Some (Some (Raise e))
       ∧ (∀ i, i < j → ∃ r, awaited !! i = Some (Some (Return r)))
       ∧ endpoints self' = endpoints self ++ delivered (take j awaited)
       ∧ active self' = active self || existsb is_endpoint (take j awaited).
Proof.
  intros Hstart awaited. unfold start in Hstart. fold awaited in Hstart.
  destruct (start_loop _ _ _) as [[[[[]|e0] s1] out1]|] eqn:E; [done| |done].
  injection Hstart as -> -> _. by apply start_loop_raises in E.
Qed.

Lemma start_stops_at_first_exception_witness :
  let cp := λ region, if String.eqb region "us-east-2"
                      then Mock.region_world [] [None; Some (ClientError "BadRequestException")]
                      else Mock.region_world [] [] in
  let awaited := awaited_outcome <$> as_completed [2; 1; 0]
                   (create_tasks 1 1 true cp Mock.example_session) in
  ∃ self' out j,
    start [2; 1; 0] 1 1 true cp Mock.example_session
    = Some (Raise (ClientError "BadRequestException"), self', out)
    ∧ awaited !! j = Some (Some (Raise (ClientError "BadRequestException")))
    ∧ endpoints self' = [] ++ delivered (take j awaited).
Proof.
  intros cp awaited.
  assert (∃ self' out, start [2; 1; 0] 1 1 true cp Mock.example_session
                       = Some (Raise (ClientError "BadRequestException"), self', out))
    as (self' & out & Hstart) by (do 2 eexists; vm_compute; reflexivity).
  destruct (start_stops_at_first_exception [2; 1; 0] 1 1 true cp Mock.example_session
              self' out _ Hstart) as (j & Hj & _ & He & _).
  by exists self', out, j.
Defined.

(** ** Entering the session without waiting for all regions *)

Section WaitFirst.

Context {CP : Type} `{!ApiGateway CP}.

Lemma last_default_or_elem {A} (l : list A) (d : A) :
  List.last l d = d ∨ List.last l d ∈ l.
Proof.
  induction l as [|x l IH]; [by left|].
  destruct l as [|y l]; [right; by left|].
  change (List.last (x :: y :: l) d) with (List.last (y :: l) d).
  destruct IH as [->|Hin]; [by left|]. right. by right.
Qed.

Lemma observed_is_state self sts p : observed self sts p ∈ self :: sts.
Proof.
  unfold observed. destruct ((self :: sts) !! p) as [s|] eqn:E; simpl.
  - by apply list_elem_of_lookup_2 in E.
  - destruct (last_default_or_elem sts self) as [->|Hin]; [by left|by right].
Qed.

Lemma wait_until_active_returns self sts polls s :
  wait_until_active self sts polls = Some s →
  active s = true ∧ s ∈ self :: sts.
Proof.
  induction polls as [|p polls IH]; [done|]. simpl.
  destruct (active (observed self sts p)) eqn:E; simpl; [|exact IH].
  intros [= <-]. split; [done|]. apply observed_is_state.
Qed.

Lemma wait_until_active_never self sts polls :
  (∀ s, s ∈ self :: sts → active s = false) →
  wait_until_active self sts polls = None.
Proof.
  intros Hall. induction polls as [|p polls IH]; [done|]. simpl.
  by rewrite (Hall _ (observed_is_state self sts p)).
Qed.

End WaitFirst.

(** X13: with [wait_all_regions] off, [__aenter__] only ever returns a
    state of the run in which the session is active, and never raises what
    [start] raises; if the session is inactive and no awaited task
    delivers an endpoint, no check of [self.active] ever succeeds and
    [__aenter__] does not return. *)
Theorem aenter_waits_for_first_endpoint {CP : Type} `{!ApiGateway CP} (sched : list nat)
    (retries pages : nat) (cp : string → world CP) (self : RotatingClientSession) :
  wait_all_regions self = false →
  let awaited := awaited_outcome <$> as_completed sched
                   (create_tasks retries pages false cp self) in
  (∀ polls r s, __aenter__ sched retries pages cp polls self = Some (r, s) →
     r = Return tt ∧ active s = true ∧ s ∈ self :: start_states self awaited)
  ∧ (active self = false → (∀ r, r ∈ awaited → is_endpoint r = false) →
     ∀ polls, __aenter__ sched retries pages cp polls self = None).
Proof.
  intros Hwait awaited. unfold __aenter__. rewrite Hwait. fold awaited. split.
  - intros polls r s H.
    destruct (wait_until_active _ _ _) as [s1|] eqn:E; [|done].
    injection H as <- <-. split; [done|]. by apply wait_until_active_returns in E.
  - intros Hinactive Hnone polls.
    rewrite wait_until_active_never; [done|].
    intros s Hs. apply list_elem_of_lookup in Hs as [k Hk].
    apply start_states_closed in Hk as [-> _]. rewrite Hinactive. simpl.
    apply not_true_iff_false. rewrite existsb_is_endpoint. intros (j & e & Hj).
    apply lookup_take_Some in Hj as [Hj _].
    apply list_elem_of_lookup_2, Hnone in Hj. done.
Qed.

Lemma aenter_waits_for_first_endpoint_witness :
  let self := mkSession "https://example.com" None None "example.com" false false false []
                "IP Rotator for https://example.com" false default_regions false in
  let down := λ _ : string, Mock.region_world [] [None; Some EndpointConnectionError] in
  __aenter__ (seq 0 20) 1 1 down [1; 5; 20; 20; 20] self = None.
Proof.
  intros self down.
  apply (aenter_waits_for_first_endpoint (seq 0 20) 1 1 down self eq_refl);
    [reflexivity|].
  apply (proj1 (Forall_forall (λ r, is_endpoint r = false) _)).
  vm_compute. repeat constructor.
Defined.

(** ** More on routing *)

Section RoutingMore.

Variable self : RotatingClientSession.

Lemma request_checks_pass i n method url kw e :
  endpoints self !! i = Some e →
  Py.startswith "http://" url || Py.startswith "https://" url = true →
  request self i n method url kw
  = let path := proxied_path url in
    let url := "https://" +:+ e +:+ "/proxy-stage/" +:+ path in
    let '(headers, aliased, is_dict) :=
      match kw_headers kw with
      | Some (HeadersDict d) =>
          if decide (d = ∅) then ((∅ : gmap string string), false, true)
          else (d, true, true)
      | Some (HeadersOther true) => (∅, false, false)
      | Some (HeadersOther false) | None => (∅, false, true)
      end in
    if negb is_dict then
      {| result := Raise (ValueError "Headers must be a dictionary-like object");
         caller_headers := kw_headers kw |}
    else
      let after (h : gmap string string) :=
        if aliased : bool then Some (HeadersDict h) else kw_headers kw in
      let headers := delete "X-Forwarded-For" headers in
      let headers := <["X-Host" := host_header self]> headers in
      match
        (match headers !! "X-Forwarded-For" with
         | Some v => if negb (String.eqb v "") then Return v
                     else (packed <- pack_I_be n ;; inet_ntoa packed)%py
         | None => (packed <- pack_I_be n ;; inet_ntoa packed)%py
         end)
      with
      | Raise e => {| result := Raise e; caller_headers := after headers |}
      | Return forwarded =>
          let headers := <["X-Forwarded-Header" := forwarded]> headers in
          {| result := Return {| d_method := method; d_url := url;
                                 d_headers := headers; d_kwargs := kw_others kw |};
             caller_headers := after headers |}
      end.
Proof.
  intros He Hurl. unfold request.
  destruct (endpoints self) as [|e0 es] eqn:Hes; [done|]. simpl length.
  change (Nat.eqb (S (length es)) 0) with false. cbv iota.
  apply orb_true_iff in Hurl.
  replace (negb (Py.startswith "http://" url) && negb (Py.startswith "https://" url))
    with false by (destruct Hurl as [-> | ->]; simpl; by rewrite ?andb_false_r).
  unfold Py.index. by rewrite He.
Qed.

Lemma request_caller_headers i n method url kw e :
  endpoints self !! i = Some e →
  Py.startswith "http://" url || Py.startswith "https://" url = true →
  (0 ≤ n ≤ 0xffffffff)%Z →
  caller_headers (request self i n method url kw)
  = match kw_headers kw with
    | Some (HeadersDict d) =>
        if decide (d = ∅) then Some (HeadersDict d)
        else Some (HeadersDict (<["X-Forwarded-Header" := dotted_quad n]>
                                  (<["X-Host" := host_header self]>
                                     (delete "X-Forwarded-For" d))))
    | other => other
    end.
Proof.
  intros He Hurl Hn. rewrite (request_checks_pass i n method url kw e) by done.
  pose proof (inet_ntoa_pack n Hn) as Hip. cbv zeta.
  destruct (kw_headers kw) as [[d|[]]|]; try done.
  - destruct (decide (d = ∅)) as [->|Hd]; simpl;
      rewrite lookup_insert_ne, lookup_delete_eq by done; by rewrite Hip.
  - simpl. rewrite lookup_insert_ne, lookup_delete_eq by done. by rewrite Hip.
  - simpl. rewrite lookup_insert_ne, lookup_delete_eq by done. by rewrite Hip.
Qed.

End RoutingMore.

(** X14: [request] writes into the caller's own [headers] when that is a
    non-empty [dict]: after the call it has lost ["X-Forwarded-For"] and
    gained ["X-Host"] and ["X-Forwarded-Header"], and it is the very
    mapping that was handed to the HTTP client; an empty [dict], [None] or
    an absent argument is left alone. *)
Theorem request_updates_caller_headers (self : RotatingClientSession) (i : nat) (n : Z)
    (method url : string) (kw : kwargs) (e : string) :
  endpoints self !! i = Some e →
  Py.startswith "http://" url || Py.startswith "https://" url = true →
  (0 ≤ n ≤ 0xffffffff)%Z →
  (∀ d, kw_headers kw = Some (HeadersDict d) → d ≠ ∅ →
     ∃ c, result (request self i n method url kw) = Return c
          ∧ caller_headers (request self i n method url kw) = Some (HeadersDict (d_headers c))
          ∧ d_headers c = <["X-Forwarded-Header" := dotted_quad n]>
                            (<["X-Host" := host_header self]>
                               (delete "X-Forwarded-For" d)))
  ∧ ((∀ d, kw_headers kw = Some (HeadersDict d) → d = ∅) →
     caller_headers (request self i n method url kw) = kw_headers kw).
Proof.
  intros He Hurl Hn.
  pose proof (request_caller_headers self i n method url kw e He Hurl Hn) as Hcaller.
  split.
  - intros d Hd Hne. eexists. split.
    { apply (request_delegates self i n method url kw e); try done.
      unfold headers_is_mapping. by rewrite Hd. }
    simpl. unfold caller_entries. rewrite Hcaller, Hd.
    by destruct (decide (d = ∅)).
  - intros Hempty. rewrite Hcaller.
    destruct (kw_headers kw) as [[d|b]|]; try done.
    destruct (decide (d = ∅)); [done|]. by destruct (Hempty d).
Qed.

Lemma request_updates_caller_headers_witness :
  let d : gmap string string := {["X-Forwarded-For" := "1.2.3.4"; "Accept" := "*/*"]} in
  let r := request (set_endpoints ["e1"] Mock.example_session) 0 1 "GET" "https://origin/a"
             {| kw_headers := Some (HeadersDict d); kw_others := ∅ |} in
  ∃ c, result r = Return c
       ∧ caller_headers r = Some (HeadersDict (d_headers c))
       ∧ d_headers c = <["X-Forwarded-Header" := dotted_quad 1]>
                         (<["X-Host" := "example.com"]> (delete "X-Forwarded-For" d)).
Proof.
  intros d r.
  apply (request_updates_caller_headers (set_endpoints ["e1"] Mock.example_session) 0 1
           "GET" "https://origin/a" {| kw_headers := Some (HeadersDict d); kw_others := ∅ |}
           "e1"); [reflexivity|reflexivity|lia|reflexivity|].
  intros Hd. by apply (f_equal (λ m : gmap string string, m !! "Accept")) in Hd.
Defined.

(** X15: in the call handed to the HTTP client, ["X-Host"] is the host
    header of the session, ["X-Forwarded-For"] is absent, and every header
    of the caller under another key than these and ["X-Forwarded-Header"]
    is passed on as it is. *)
Theorem request_outgoing_headers (self : RotatingClientSession) (i : nat) (n : Z)
    (method url : string) (kw : kwargs) (e : string) :
  endpoints self !! i = Some e →
  Py.startswith "http://" url || Py.startswith "https://" url = true →
  headers_is_mapping kw = true →
  (0 ≤ n ≤ 0xffffffff)%Z →
  outgoing_header (request self i n method url kw) "X-Host" = Some (host_header self)
  ∧ outgoing_header (request self i n method url kw) "X-Forwarded-For" = None
  ∧ ∀ key, key ≠ "X-Host" → key ≠ "X-Forwarded-For" → key ≠ "X-Forwarded-Header" →
      outgoing_header (request self i n method url kw) key = caller_entries kw !! key.
Proof.
  intros He Hurl Hmap Hn. unfold outgoing_header.
  rewrite (request_delegates self i n method url kw e) by done. simpl.
  split; [|split].
  - by rewrite lookup_insert_ne, lookup_insert_eq.
  - by rewrite !lookup_insert_ne, lookup_delete_eq.
  - intros key H1 H2 H3. by rewrite !lookup_insert_ne, lookup_delete_ne.
Qed.

Lemma request_outgoing_headers_witness :
  let d : gmap string string := {["X-Host" := "spoofed"; "Accept" := "*/*"]} in
  let r := request (set_endpoints ["e1"] Mock.example_session) 0 1 "GET" "https://origin/a"
             {| kw_headers := Some (HeadersDict d); kw_others := ∅ |} in
  outgoing_header r "X-Host" = Some "example.com"
  ∧ outgoing_header r "X-Forwarded-For" = None
  ∧ ∀ key, key ≠ "X-Host" → key ≠ "X-Forwarded-For" → key ≠ "X-Forwarded-Header" →
      outgoing_header r key = d !! key.
Proof.
  intros d r.
  apply (request_outgoing_headers (set_endpoints ["e1"] Mock.example_session) 0 1
           "GET" "https://origin/a" {| kw_headers := Some (HeadersDict d); kw_others := ∅ |}
           "e1"); [reflexivity|reflexivity|reflexivity|lia].
Defined.

(** X16: on a started session [request] checks the URL before it looks at
    the headers: a URL that begins with neither ["http://"] nor
    ["https://"] raises [ValueError] whatever the headers are, and a
    [headers] argument that is not a [dict] (and not falsy) raises
    [ValueError] for a good URL; in both cases the caller's object is
    untouched and nothing is handed to the HTTP client. *)
Theorem request_rejects_bad_arguments (self : RotatingClientSession) (i : nat) (n : Z)
    (method url : string) (kw : kwargs) (e : string) :
  endpoints self !! i = Some e →
  (Py.startswith "http://" url || Py.startswith "https://" url = false →
   request self i n method url kw
   = {| result := Raise (ValueError "Invalid URL schema");
        caller_headers := kw_headers kw |})
  ∧ (Py.startswith "http://" url || Py.startswith "https://" url = true →
     headers_is_mapping kw = false →
     request self i n method url kw
     = {| result := Raise (ValueError "Headers must be a dictionary-like object");
          caller_headers := kw_headers kw |}).
Proof.
  intros He. split.
  - intros Hurl. unfold request.
    destruct (endpoints self) as [|e0 es] eqn:Hes; [done|]. simpl length.
    change (Nat.eqb (S (length es)) 0) with false. cbv iota.
    apply orb_false_iff in Hurl as [-> ->]. done.
  - intros Hurl Hmap. rewrite (request_checks_pass self i n method url kw e) by done.
    unfold headers_is_mapping in Hmap.
    by destruct (kw_headers kw) as [[d|[]]|].
Qed.

Lemma request_rejects_bad_arguments_witness :
  let self := set_endpoints ["e1"] Mock.example_session in
  request self 0 1 "GET" "ftp://origin/a" {| kw_headers := Some (HeadersOther true); kw_others := ∅ |}
  = {| result := Raise (ValueError "Invalid URL schema");
       caller_headers := Some (HeadersOther true) |}
  ∧ request self 0 1 "GET" "http://origin/a" {| kw_headers := Some (HeadersOther true); kw_others := ∅ |}
    = {| result := Raise (ValueError "Headers must be a dictionary-like object");
         caller_headers := Some (HeadersOther true) |}.
Proof.
  intros self. split.
  - apply (proj1 (request_rejects_bad_arguments self 0 1 "GET" "ftp://origin/a"
                    {| kw_headers := Some (HeadersOther true); kw_others := ∅ |} "e1"
                    eq_refl)).
    reflexivity.
  - apply (proj2 (request_rejects_bad_arguments self 0 1 "GET" "http://origin/a"
                    {| kw_headers := Some (HeadersOther true); kw_others := ∅ |} "e1"
                    eq_refl)); reflexivity.
Defined.

(** X17: [inet_ntoa(pack(">I", n))] is one-to-one on the 32-bit values:
    two draws give the same address only if they are the same integer. *)
Theorem inet_ntoa_pack_injective (n m : Z) :
  (0 ≤ n ≤ 0xffffffff)%Z → (0 ≤ m ≤ 0xffffffff)%Z →
  (packed <- pack_I_be n ;; inet_ntoa packed)%py
  = (packed <- pack_I_be m ;; inet_ntoa packed)%py →
  n = m.
Proof.
  intros Hn Hm H. rewrite !inet_ntoa_pack in H by done. injection H as H.
  apply (f_equal split_dots) in H. rewrite !dotted_quad_bytes in H by done.
  injection H as H3 H2 H1 H0.
  apply (inj pretty) in H3, H2, H1, H0.
  change (2 ^ 24)%Z with 16777216%Z in H3.
  change (2 ^ 16)%Z with 65536%Z in H2.
  change (2 ^ 8)%Z with 256%Z in H1.
  Z.to_euclidean_division_equations. lia.
Qed.

Lemma inet_ntoa_pack_injective_witness :
  (packed <- pack_I_be 0xC0A80001 ;; inet_ntoa packed)%py = Return "192.168.0.1"
  ∧ 0xC0A80001%Z = 3232235521%Z.
Proof.
  split; [vm_compute; reflexivity|].
  apply (inet_ntoa_pack_injective 0xC0A80001 3232235521); [lia|lia|reflexivity].
Defined.

(** ** The host header chosen at construction *)

Lemma drop_last_cons x s : s ≠ "" → Py.drop_last (String x s) = String x (Py.drop_last s).
Proof. by destruct s. Qed.

Lemma app_nonempty (a b : string) : b ≠ "" → a +:+ b ≠ "".
Proof. by destruct a. Qed.

Ltac nonempty := repeat first [discriminate | apply app_nonempty].

Lemma drop_last_app a b : b ≠ "" → Py.drop_last (a +:+ b) = a +:+ Py.drop_last b.
Proof.
  intros Hb. induction a as [|x a IH]; [done|].
  rewrite !app_cons, drop_last_cons by (by apply app_nonempty). by rewrite IH.
Qed.

Lemma endswith_app_nonempty c a b :
  b ≠ "" → Py.endswith (String c "") (a +:+ b) = Py.endswith (String c "") b.
Proof.
  intros Hb. induction a as [|x a IH]; [done|].
  rewrite app_cons, endswith_eq, IH.
  replace (String.eqb (String c "") (String x (a +:+ b))) with false; [done|].
  pose proof (app_nonempty a b Hb). simpl.
  destruct (Ascii.eqb c x), (a +:+ b); done.
Qed.

Lemma endswith_no_char c s :
  contains_char c s = false → Py.endswith (String c "") s = false.
Proof.
  induction s as [|y s IH]; [done|]. rewrite contains_char_cons, endswith_eq.
  intros H. apply orb_false_iff in H as [Hc Hs]. rewrite (IH Hs).
  simpl. by rewrite Hc.
Qed.

Lemma split1_scheme scheme rest :
  scheme = "http" ∨ scheme = "https" →
  Py.split1 "://" (scheme +:+ "://" +:+ rest) = [scheme; rest].
Proof. intros [-> | ->]; [apply split1_http|apply split1_https]. Qed.

(** The host found in a stored target [scheme://host] followed by nothing
    or by a slash and more. *)
Lemma host_of_target scheme host tail :
  scheme = "http" ∨ scheme = "https" →
  contains_char "/" host = false →
  tail = "" ∨ (∃ x, tail = String "/" x) →
  (rest <- Py.index (Py.split1 "://" (scheme +:+ "://" +:+ host +:+ tail)) 1 ;;
   Py.index (Py.split1 "/" rest) 0)%py = Return host.
Proof.
  intros Hs Hh Htail. rewrite split1_scheme by done. simpl. unfold Py.split1.
  destruct Htail as [->|[x ->]].
  - by rewrite app_nil_r_str, partition_absent.
  - by rewrite (partition_no_sep "/" host x Hh).
Qed.

Section HostHeader.

Variables (kid ksecret hh : option string) (ca vb war : bool).

Lemma init_with_host url h :
  Py.startswith "http://" url || Py.startswith "https://" url = true →
  let stored := if negb (Py.endswith "/" url) then url else Py.drop_last url in
  (if Py.truthy hh then Return (default "" hh)
   else (rest <- Py.index (Py.split1 "://" stored) 1 ;;
         Py.index (Py.split1 "/" rest) 0)%py) = Return h →
  ∃ self, __init__ url kid ksecret hh ca vb war = Return self
          ∧ host_header self = h
          ∧ target self = stored
          ∧ name self = "IP Rotator for " +:+ stored.
Proof.
  intros Hurl stored Hhost. unfold __init__. fold stored.
  apply orb_true_iff in Hurl.
  replace (negb (Py.startswith "http://" url) && negb (Py.startswith "https://" url))
    with false by (destruct Hurl as [-> | ->]; simpl; by rewrite ?andb_false_r).
  rewrite Hhost. simpl. by eexists.
Qed.

End HostHeader.

(** X18: when no host header is given, [__init__] takes the host from the
    target: what stands between ["://"] and the next slash, whether or not
    a path or a trailing slash follows; a target that is only a scheme then
    raises [IndexError].  A host header that is given is used as it is,
    for every target with a good scheme. *)
Theorem init_host_header (scheme host : string) (kid ksecret hh : option string)
    (ca vb war : bool) :
  scheme = "http" ∨ scheme = "https" →
  contains_char "/" host = false →
  (Py.truthy hh = false →
   (∀ p, ∃ self, __init__ (scheme +:+ "://" +:+ host +:+ "/" +:+ p) kid ksecret hh ca vb war
                 = Return self
                 ∧ host_header self = host
                 ∧ name self = "IP Rotator for " +:+ target self)
   ∧ (host ≠ "" →
      ∃ self, __init__ (scheme +:+ "://" +:+ host) kid ksecret hh ca vb war = Return self
              ∧ host_header self = host
              ∧ target self = scheme +:+ "://" +:+ host)
   ∧ __init__ (scheme +:+ "://") kid ksecret hh ca vb war = Raise IndexError)
  ∧ (∀ h rest, hh = Some h → h ≠ "" →
       ∃ self, __init__ (scheme +:+ "://" +:+ rest) kid ksecret hh ca vb war = Return self
               ∧ host_header self = h).
Proof.
  intros Hs Hh. split.
  - intros Hfalsy. split; [|split].
    + intros p.
      destruct (init_with_host kid ksecret hh ca vb war
                  (scheme +:+ "://" +:+ host +:+ "/" +:+ p) host)
        as (self & Hself & Hhost & Ht & Hn).
      { by apply scheme_accepted. }
      { rewrite Hfalsy.
        assert (∃ tail, (if negb (Py.endswith "/" (scheme +:+ "://" +:+ host +:+ "/" +:+ p))
                         then scheme +:+ "://" +:+ host +:+ "/" +:+ p
                         else Py.drop_last (scheme +:+ "://" +:+ host +:+ "/" +:+ p))
                        = scheme +:+ "://" +:+ host +:+ tail
                        ∧ (tail = "" ∨ ∃ x, tail = String "/" x)) as (tail & -> & Htail).
        { destruct (Py.endswith "/" _); simpl.
          - rewrite !drop_last_app by nonempty.
            change ("/" +:+ p) with (String "/" p).
            destruct p as [|c p]; [by exists ""; split; [|left]|].
            rewrite drop_last_cons by done. eexists. split; [reflexivity|right; by eexists].
          - exists ("/" +:+ p). split; [done|right; by eexists]. }
        by apply host_of_target. }
      exists self. split; [done|]. split; [done|]. by rewrite Hn, Ht.
    + intros Hne.
      destruct (init_with_host kid ksecret hh ca vb war (scheme +:+ "://" +:+ host) host)
        as (self & Hself & Hhost & Ht & Hn).
      { rewrite <-(app_nil_r_str host). by apply scheme_accepted. }
      { rewrite Hfalsy.
        replace (Py.endswith "/" (scheme +:+ "://" +:+ host)) with false.
        2:{ rewrite !endswith_app_nonempty by (first [exact Hne|nonempty]).
            by rewrite endswith_no_char. }
        simpl. rewrite <-(app_nil_r_str host) at 1. apply host_of_target; auto. }
      exists self. split; [done|]. split; [done|].
      rewrite Ht. replace (Py.endswith "/" (scheme +:+ "://" +:+ host)) with false; [done|].
      rewrite !endswith_app_nonempty by (first [exact Hne|nonempty]).
      by rewrite endswith_no_char.
    + unfold __init__. destruct Hs as [-> | ->]; simpl; by rewrite Hfalsy.
  - intros h rest -> Hne.
    destruct (init_with_host kid ksecret (Some h) ca vb war (scheme +:+ "://" +:+ rest) h)
      as (self & Hself & Hhost & _).
    { by apply scheme_accepted. }
    { simpl. apply String.eqb_neq in Hne. by rewrite Hne. }
    by exists self.
Qed.

Lemma init_host_header_witness :
  (∃ self, __init__ "https://ipinfo.io/json/" None None None false false true = Return self
           ∧ host_header self = "ipinfo.io"
           ∧ name self = "IP Rotator for " +:+ target self)
  ∧ __init__ "https://" None None (Some "") false false true = Raise IndexError
  ∧ ∃ self, __init__ "https://" None None (Some "h.example") false false true = Return self
            ∧ host_header self = "h.example".
Proof.
  destruct (init_host_header "https" "ipinfo.io" None None None false false true
              (or_intror eq_refl) eq_refl) as [Hnone _].
  destruct (Hnone eq_refl) as (Hpath & _ & _).
  destruct (init_host_header "https" "" None None (Some "") false false true
              (or_intror eq_refl) eq_refl) as [Hempty _].
  destruct (Hempty eq_refl) as (_ & _ & Hbare).
  destruct (init_host_header "https" "" None None (Some "h.example") false false true
              (or_intror eq_refl) eq_refl) as [_ Hgiven].
  split; [exact (Hpath "json/")|]. split; [exact Hbare|].
  apply (Hgiven "h.example" ""); [reflexivity|discriminate].
Defined.

(** ** The per-method calls *)

(** X19: on a started session, [get], [options] and [head] hand over what
    [request] hands over for their method with [allow_redirects] among
    the keyword arguments, [post], [put] and [patch] likewise with [data],
    and [delete] adds nothing; the other keyword arguments of the caller
    are passed on. *)
Theorem verbs_forward_to_request (self : RotatingClientSession) (i : nat) (n : Z)
    (url : string) (kw : kwargs) (e : string) (b : bool) (data : pyval) :
  endpoints self !! i = Some e →
  Py.startswith "http://" url || Py.startswith "https://" url = true →
  headers_is_mapping kw = true →
  (0 ≤ n ≤ 0xffffffff)%Z →
  let handed (method : string) (others : gmap string pyval) :=
    Return {| d_method := method;
              d_url := "https://" +:+ e +:+ "/proxy-stage/" +:+ proxied_path url;
              d_headers := <["X-Forwarded-Header" := dotted_quad n]>
                             (<["X-Host" := host_header self]>
                                (delete "X-Forwarded-For" (caller_entries kw)));
              d_kwargs := others |} in
  result (Verbs.get self i n url b kw)
    = handed "GET" (<["allow_redirects" := PyBool b]> (kw_others kw))
  ∧ result (Verbs.options self i n url b kw)
    = handed "OPTIONS" (<["allow_redirects" := PyBool b]> (kw_others kw))
  ∧ result (Verbs.head self i n url b kw)
    = handed "HEAD" (<["allow_redirects" := PyBool b]> (kw_others kw))
  ∧ result (Verbs.post self i n url data kw) = handed "POST" (<["data" := data]> (kw_others kw))
  ∧ result (Verbs.put self i n url data kw) = handed "PUT" (<["data" := data]> (kw_others kw))
  ∧ result (Verbs.patch self i n url data kw)
    = handed "PATCH" (<["data" := data]> (kw_others kw))
  ∧ result (Verbs.delete self i n url kw) = handed "DELETE" (kw_others kw).
Proof.
  intros He Hurl Hmap Hn handed.
  unfold Verbs.get, Verbs.options, Verbs.head, Verbs.post, Verbs.put, Verbs.patch,
    Verbs.delete.
  repeat split;
    by rewrite (request_delegates self i n _ url _ e).
Qed.

Lemma verbs_forward_to_request_witness :
  let self := set_endpoints ["e1"] Mock.example_session in
  let kw := {| kw_headers := None; kw_others := {["timeout" := PyInt 5]} |} in
  ∃ c, result (Verbs.head self 0 1 "https://origin/a" false kw) = Return c
       ∧ d_method c = "HEAD"
       ∧ d_kwargs c = <["allow_redirects" := PyBool false]> {["timeout" := PyInt 5]}.
Proof.
  intros self kw. eexists.
  destruct (verbs_forward_to_request self 0 1 "https://origin/a" kw "e1" false PyNone
              eq_refl eq_refl eq_refl ltac:(lia)) as (_ & _ & Hhead & _).
  split; [exact Hhead|]. split; reflexivity.
Defined.

(** ** Activation during a provisioning run *)

Section Activation.

Context {CP : Type} `{!ApiGateway CP}.

(** The loop of [start] on a list of results goes through the state in
    which it ends on each prefix of the list. *)
Lemma start_loop_app (l1 l2 : list (option (outcome (option string)))) :
  ∀ self out,
    start_loop self (l1 ++ l2) out
    = match start_loop self l1 out with
      | Some (Return _, s, o) => start_loop s l2 o
      | r => r
      end.
Proof.
  induction l1 as [|r l1 IH]; intros self out; [done|].
  simpl. destruct r as [[ep|e]|]; [apply IH|done..].
Qed.

Lemma start_loop_total (awaited : list (option (outcome (option string)))) :
  ∀ self out,
    (∀ r, r ∈ awaited → ∃ x, r = Some (Return x)) →
    ∃ self' out', start_loop self awaited out = Some (Return tt, self', out').
Proof.
  induction awaited as [|r awaited IH]; intros self out Hall; [by eexists _, _|].
  destruct (Hall r) as [x ->]; [by left|]. simpl.
  apply IH. intros r Hr. apply Hall. by right.
Qed.

End Activation.

(** C4: on a freshly constructed session, whatever results the tasks
    deliver and in whatever order, with the session observed at the
    [await]s of the loop of [start], that is in the state in which the
    loop ends on the first [k] results: the session is inactive before the
    run; after [k] results it is active exactly when one of them was an
    endpoint, and exactly when the endpoint set is non-empty; once active
    it stays active, and the endpoint set of an earlier state is a prefix
    of that of a later one.  [start] itself returns when every awaited
    task returns, and then the session is active exactly when a task
    delivered an endpoint and exactly when the endpoint set is non-empty;
    if every result is absent it ends inactive with no endpoint. *)
Theorem start_activates_once {CP : Type} `{!ApiGateway CP} (url : string)
    (kid ksecret hh : option string) (ca vb war : bool) (self : RotatingClientSession)
    (awaited : list (option (outcome (option string)))) :
  __init__ url kid ksecret hh ca vb war = Return self →
  active self = false
  ∧ (∀ (k : nat) s out out',
       start_loop self (take k awaited) out = Some (Return tt, s, out') →
       (active s = true ↔
        ∃ (j : nat) e, (j < k)%nat ∧ awaited !! j = Some (Some (Return (Some e))))
       ∧ (active s = true ↔ endpoints s ≠ []))
  ∧ (∀ (j k : nat) s s' out1 out1' out2 out2', (j ≤ k)%nat →
       start_loop self (take j awaited) out1 = Some (Return tt, s, out1') →
       start_loop self (take k awaited) out2 = Some (Return tt, s', out2') →
       (active s = true → active s' = true) ∧ endpoints s `prefix_of` endpoints s')
  ∧ (∀ (sched : list nat) (retries pages : nat) (force : bool) (cp : string → world CP),
       awaited = awaited_outcome <$> as_completed sched
                   (create_tasks retries pages force cp self) →
       ((∀ r, r ∈ awaited → ∃ x, r = Some (Return x)) →
        ∃ self' out, start sched retries pages force cp self = Some (Return tt, self', out))
       ∧ ∀ self' out,
           start sched retries pages force cp self = Some (Return tt, self', out) →
           (active self' = true ↔
            ∃ (j : nat) e, awaited !! j = Some (Some (Return (Some e))))
           ∧ (active self' = true ↔ endpoints self' ≠ [])
           ∧ ((∀ r, r ∈ awaited → r = Some (Return None)) →
              active self' = false ∧ endpoints self' = [])).
Proof.
  intros Hinit.
  destruct (init_fresh _ _ _ _ _ _ _ _ Hinit) as (He0 & Ha0 & _).
  assert (Hclosed : ∀ l s out out',
            start_loop self l out = Some (Return tt, s, out') →
            active s = existsb is_endpoint l ∧ endpoints s = delivered l).
  { intros l s out out' Hs. apply start_loop_returns in Hs as [He Ha].
    by rewrite Ha0 in Ha; rewrite He0 in He. }
  split; [done|]. split; [|split].
  - intros k s out out' Hs. destruct (Hclosed _ _ _ _ Hs) as [Ha He]. split.
    + rewrite Ha, existsb_is_endpoint. split.
      * intros (j & e & Hj). exists j, e.
        apply lookup_take_Some in Hj as [??]. done.
      * intros (j & e & Hlt & Hj). exists j, e. by rewrite lookup_take_lt.
    + rewrite Ha, He. rewrite <-not_false_iff_true, <-delivered_nil_iff. done.
  - intros j k s s' out1 out1' out2 out2' Hjk Hs Hs'.
    destruct (Hclosed _ _ _ _ Hs) as [Ha He], (Hclosed _ _ _ _ Hs') as [Ha' He'].
    rewrite Ha, Ha', He, He', (take_le_split awaited j k Hjk). split.
    + rewrite existsb_app. by intros ->.
    + unfold delivered. rewrite omap_app. by eexists.
  - intros sched retries pages force cp Hawaited. split.
    + intros Hall. unfold start. rewrite <-Hawaited.
      destruct (start_loop_total awaited self
                  (say self ("Starting IP Rotating APIs in "
                             +:+ pretty (length (regions self)) +:+ " regions") []) Hall)
        as (self' & out' & ->).
      by eexists _, _.
    + intros self' out Hstart. unfold start in Hstart. rewrite <-Hawaited in Hstart.
      destruct (start_loop self awaited _) as [[[[[]|e] s1] out1]|] eqn:E; [|done..].
      injection Hstart as <- _.
      destruct (Hclosed _ _ _ _ E) as [Ha He].
      split; [by rewrite Ha, existsb_is_endpoint|].
      split; [rewrite Ha, He; by rewrite <-not_false_iff_true, <-delivered_nil_iff|].
      intros Habsent.
      assert (existsb is_endpoint awaited = false) as Hnone.
      { apply not_true_iff_false. rewrite existsb_is_endpoint. intros (j & e & Hj).
        apply list_elem_of_lookup_2, Habsent in Hj. done. }
      split; [by rewrite Ha|]. rewrite He. by apply delivered_nil_iff.
Qed.

Lemma start_activates_once_witness :
  let cp := λ region, if String.eqb region "us-east-2"
                      then Mock.region_world [] [Some EndpointConnectionError]
                      else Mock.region_world [] [] in
  active Mock.example_session = false
  ∧ ∃ self' out,
      start [1; 0; 2] 1 1 true cp Mock.example_session = Some (Return tt, self', out)
      ∧ (active self' = true ↔ endpoints self' ≠ [])
      ∧ (active self' = true ↔
         ∃ (j : nat) e,
           (awaited_outcome <$> as_completed [1; 0; 2]
              (create_tasks 1 1 true cp Mock.example_session)) !! j
           = Some (Some (Return (Some e)))).
Proof.
  intros cp.
  destruct (start_activates_once (CP:=Mock.state)
              "https://example.com/" None None None false false true
              Mock.example_session
              (awaited_outcome <$> as_completed [1; 0; 2]
                 (create_tasks 1 1 true cp Mock.example_session)) eq_refl)
    as (Hbefore & _ & _ & Hstart).
  split; [exact Hbefore|].
  destruct (Hstart [1; 0; 2] 1 1 true cp eq_refl) as [Hreturns Hends].
  destruct Hreturns as (self' & out & Hrun).
  { apply (proj1 (Forall_forall (λ r, ∃ x, r = Some (Return x)) _)).
    vm_compute. repeat constructor; by eexists. }
  exists self', out. split; [exact Hrun|].
  destruct (Hends self' out Hrun) as (Hiff & Hne & _). by split.
Defined.
